(** * PartSelect chat agent: classifier, composer, renderer and controller

    A shallow embedding of the front-end of the PartSelect assistant:

    - [frontend/src/utils/api.js]: [sendChatMessage] and the prototype chat
      component [PartSelectChatAgent] ([processQuery], [handleSend],
      [renderMessage]);
    - the page component [Home], which forwards every query to the answer
      service ([handleSend] with [fetch]).

    JavaScript strings are sequences of UTF-16 code units; they are modelled
    as lists of code units.  React state is a record; one handler invocation
    is one function from state to state, run against the committed state. *)

From Stdlib Require Import List NArith Bool String Ascii Lia PrimFloat Sorted.
Import ListNotations.

Set Warnings "-inexact-float,-register-all".

Local Open Scope N_scope.
Local Open Scope list_scope.

(** ** JavaScript strings *)

Module JS.

(** A UTF-16 code unit. *)
Definition unit16 := N.

Definition jsstring := list unit16.

(** A literal made of Basic Latin characters only. *)
Definition lit (s : string) : jsstring :=
  map N_of_ascii (list_ascii_of_string s).

Definition LF : unit16 := 10.          (* '\n' *)
Definition QUOTE : unit16 := 34.       (* the double quote *)
Definition STAR : unit16 := 42.        (* '*' *)
Definition DOT : unit16 := 46.         (* '.' *)
Definition LBRACKET : unit16 := 91.    (* '[' *)
Definition RBRACKET : unit16 := 93.    (* ']' *)
Definition BULLET : unit16 := 8226.    (* U+2022, the bullet marker *)

(** Exceptions a handler can observe. *)
Inductive error : Type :=
| TypeError          (* property read on null or undefined *)
| SyntaxError        (* body is not JSON *)
| NetworkError       (* fetch rejected *)
| Error (msg : jsstring).

(** The completion of an expression: a value or a thrown exception. *)
Inductive completion (A : Type) : Type :=
| Ok (a : A)
| Throw (e : error).

Arguments Ok {A} a.
Arguments Throw {A} e.

Definition bind {A B} (c : completion A) (k : A -> completion B) : completion B :=
  match c with
  | Ok a => k a
  | Throw e => Throw e
  end.

Notation "x <- c ;; k" := (bind c (fun x => k))
  (at level 61, c at next level, right associativity).

(** [Array.prototype.map] with a callback that may throw: the first
    exception aborts the traversal. *)
Fixpoint mapM {A B} (f : A -> completion B) (l : list A) : completion (list B) :=
  match l with
  | [] => Ok []
  | a :: t => b <- f a ;; bs <- mapM f t ;; Ok (b :: bs)
  end.

Fixpoint eqs (a b : jsstring) : bool :=
  match a, b with
  | [], [] => true
  | x :: a', y :: b' => (x =? y) && eqs a' b'
  | _, _ => false
  end.

(** [s.startsWith(p)] *)
Fixpoint startsWith (p s : jsstring) : bool :=
  match p, s with
  | [], _ => true
  | _ :: _, [] => false
  | x :: p', y :: s' => (x =? y) && startsWith p' s'
  end.

(** [s.endsWith(p)] *)
Definition endsWith (p s : jsstring) : bool :=
  startsWith (rev p) (rev s).

(** [s.includes(p)] *)
Fixpoint includes (p s : jsstring) : bool :=
  startsWith p s ||
  match s with
  | [] => false
  | _ :: t => includes p t
  end.

(** [s.split(sep)] for a separator of one code unit. *)
Fixpoint split (sep : unit16) (s : jsstring) : list jsstring :=
  match s with
  | [] => [[]]
  | c :: t =>
      if c =? sep then [] :: split sep t
      else match split sep t with
           | [] => [[c]]
           | l :: ls => (c :: l) :: ls
           end
  end.

(** ECMAScript LineTerminator code units. *)
Definition isLineTerminator (c : unit16) : bool :=
  (c =? 10) || (c =? 13) || (c =? 8232) || (c =? 8233).

(** ECMAScript WhiteSpace and LineTerminator code units: what [trim]
    strips. *)
Definition isWhiteSpace (c : unit16) : bool :=
  (c =? 9) || (c =? 11) || (c =? 12) || (c =? 32) || (c =? 160)
  || (c =? 5760) || ((8192 <=? c) && (c <=? 8202))
  || (c =? 8239) || (c =? 8287) || (c =? 12288) || (c =? 65279)
  || isLineTerminator c.

Fixpoint trimStart (s : jsstring) : jsstring :=
  match s with
  | [] => []
  | c :: t => if isWhiteSpace c then trimStart t else s
  end.

Definition trimEnd (s : jsstring) : jsstring :=
  rev (trimStart (rev s)).

(** [s.trim()] *)
Definition trim (s : jsstring) : jsstring :=
  trimEnd (trimStart s).

(** Case mapping of one code unit.  The code units whose lowercase
    form holds a Basic Latin letter are mapped as [toLowerCase] maps them:
    A to Z, U+212A (the Kelvin sign, to k) and U+0130 (to i followed by
    U+0307).  Every other code unit lowercases to code units outside Basic
    Latin and is kept as it is: a search for a Basic Latin literal cannot
    tell the difference. *)
Definition lowerUnit (c : unit16) : jsstring :=
  if (65 <=? c) && (c <=? 90) then [c + 32]
  else if c =? 8490 then [107]
  else if c =? 304 then [105; 775]
  else [c].

(** [s.toLowerCase()] *)
Definition toLowerCase (s : jsstring) : jsstring :=
  flat_map lowerUnit s.

(** The truth value of a string: only the empty string is falsy. *)
Definition truthy (s : jsstring) : bool :=
  match s with
  | [] => false
  | _ :: _ => true
  end.

(** The class [\d]. *)
Definition isDigit (c : unit16) : bool :=
  (48 <=? c) && (c <=? 57).

(** [/^\d+\./] tested at the start of [s]: after one digit, the greedy
    run of digits continues, then a period is required. *)
Fixpoint digitsThenDot (s : jsstring) : bool :=
  match s with
  | [] => false
  | c :: t => if isDigit c then digitsThenDot t else c =? DOT
  end.

Definition matchNumbered (s : jsstring) : bool :=
  match s with
  | [] => false
  | c :: t => isDigit c && digitsThenDot t
  end.

(** [s.replace(/\*\*/g, '')]: every occurrence of two stars, found from
    left to right without overlap, is deleted. *)
Fixpoint replaceBold (s : jsstring) : jsstring :=
  match s with
  | [] => []
  | a :: t =>
      match t with
      | [] => [a]
      | b :: t' =>
          if (a =? STAR) && (b =? STAR) then replaceBold t'
          else a :: replaceBold t
      end
  end.

(** The tail [(.*?)\]] of the pattern, tried right after an opening
    bracket: the lazy star first tries to stop (a closing bracket), and
    otherwise consumes one code unit that is not a line terminator.
    Returns capture group 1. *)
Fixpoint lazyGroup (s : jsstring) : option jsstring :=
  match s with
  | [] => None
  | c :: t =>
      if c =? RBRACKET then Some []
      else if isLineTerminator c then None
      else match lazyGroup t with
           | Some g => Some (c :: g)
           | None => None
           end
  end.

(** [s.match(/\[(.*?)\]/)]: the leftmost start position at which the
    pattern matches; [None] is JavaScript's [null].  Only capture group 1
    is kept, the one element the caller reads. *)
Fixpoint matchBracket (s : jsstring) : option jsstring :=
  match s with
  | [] => None
  | c :: t =>
      if c =? LBRACKET then
        match lazyGroup t with
        | Some g => Some g
        | None => matchBracket t
        end
      else matchBracket t
  end.

End JS.

Import JS.

(** [lines.join('\n')]: the content literals of the source are written
    line by line. *)
Fixpoint joinLF (ls : list jsstring) : jsstring :=
  match ls with
  | [] => []
  | [l] => l
  | l :: rest => l ++ LF :: joinLF rest
  end.

(** [new Date()]: milliseconds read from the clock. *)
Definition Time := N.

(** ** The prototype component of [frontend/src/utils/api.js] *)

Module PartSelectChatAgent.

(** The [type] field of a response. *)
Inductive Intent : Type :=
| installation
| compatibility
| troubleshooting
| general.

Record PartInfo : Type := {
  pi_partNumber : jsstring;
  pi_name : jsstring;
  pi_price : jsstring;
  pi_inStock : bool
}.

Record Product : Type := {
  cp_partNumber : jsstring;
  cp_name : jsstring;
  cp_price : jsstring;
  cp_compatibility : jsstring;
  cp_fixPercentage : float
}.

Record Diagnosis : Type := {
  d_issue : jsstring;
  d_solution : jsstring;
  d_likelihood : jsstring
}.

Record RecommendedPart : Type := {
  rp_partNumber : jsstring;
  rp_name : jsstring;
  rp_price : jsstring;
  rp_fixPercentage : float;
  rp_reviews : float
}.

(** The object [processQuery] returns.  A property the object literal
    does not define reads as [undefined]: [None]. *)
Record Response : Type := {
  r_type : Intent;
  r_content : jsstring;
  r_partInfo : option PartInfo;
  r_products : option (list Product);
  r_troubleshooting : option (list Diagnosis);
  r_recommendedParts : option (list RecommendedPart)
}.

Inductive Role : Type := user | bot.

Record Message : Type := {
  m_type : Role;
  m_content : jsstring;
  m_data : option Response;
  m_timestamp : Time
}.

Definition installationContent : jsstring :=
  joinLF [
    lit "**Installation Guide for Part PS11752778 - Dishwasher Upper Rack Adjuster**";
    [];
    lit "**Tools Needed:**";
    BULLET :: lit " Phillips screwdriver";
    BULLET :: lit " Needle-nose pliers (optional)";
    [];
    lit "**Step-by-Step Instructions:**";
    [];
    lit "1. **Safety First**: Disconnect power to the dishwasher";
    lit "2. **Remove Upper Rack**: Pull the rack completely out of the dishwasher";
    lit "3. **Locate Adjuster**: Find the worn adjuster on the side of the rack";
    lit "4. **Remove Old Part**: Press the release tab and slide out the old adjuster";
    lit "5. **Install New Adjuster**: Align the new PS11752778 adjuster and snap it into place";
    lit "6. **Test Movement**: Ensure the adjuster moves smoothly up and down";
    lit "7. **Reinstall Rack**: Slide the rack back into the dishwasher";
    lit "8. **Test**: Run a test cycle to verify proper operation";
    [];
    lit "**Estimated Time:** 15-20 minutes";
    lit "**Difficulty:** Easy";
    [];
    lit "[View Video Tutorial](https://www.partselect.com/PS11752778)"
  ].

Definition compatibilityContent : jsstring :=
  joinLF [
    lit "**Compatibility Check for Model WDT780SAEM1**";
    [];
    lit "Great news! I found several compatible parts for your Whirlpool dishwasher model **WDT780SAEM1**.";
    [];
    lit "**Based on your question, here are the most relevant parts:**"
  ].

Definition troubleshootingContent : jsstring :=
  joinLF [
    lit "**Troubleshooting: Ice Maker Not Working - Whirlpool Refrigerator**";
    [];
    lit "**Common Causes & Solutions:**"
  ].

Definition generalContent : jsstring :=
  joinLF [
    lit "I can help you with that! To provide the most accurate information, please specify:";
    [];
    BULLET :: lit " Part number (e.g., PS11752778)";
    BULLET :: lit " Model number (e.g., WDT780SAEM1)";
    BULLET :: lit " Specific issue or question";
    [];
    lit "Or try asking:";
    BULLET :: lit " " ++ QUOTE :: lit "How do I install part PS11752778?" ++ [QUOTE];
    BULLET :: lit " " ++ QUOTE :: lit "Is part X compatible with model Y?" ++ [QUOTE];
    BULLET :: lit " " ++ QUOTE :: lit "My ice maker isn't working" ++ [QUOTE]
  ].

(** The simulated answer service: ordered tests on the lowercased query,
    the first that holds decides. *)
Definition processQuery (query : jsstring) : Response :=
  let lowerQuery := toLowerCase query in
  if includes (lit "install") lowerQuery && includes (lit "ps11752778") lowerQuery then
    {| r_type := installation;
       r_content := installationContent;
       r_partInfo := Some {| pi_partNumber := lit "PS11752778";
                             pi_name := lit "Upper Rack Adjuster";
                             pi_price := lit "$12.99";
                             pi_inStock := true |};
       r_products := None;
       r_troubleshooting := None;
       r_recommendedParts := None |}
  else if includes (lit "compatible") lowerQuery && includes (lit "wdt780saem1") lowerQuery then
    {| r_type := compatibility;
       r_content := compatibilityContent;
       r_partInfo := None;
       r_products := Some [
         {| cp_partNumber := lit "W10350375";
            cp_name := lit "Dishwasher Upper Rack Assembly";
            cp_price := lit "$89.95";
            cp_compatibility := lit "Direct Fit";
            cp_fixPercentage := 95%float |};
         {| cp_partNumber := lit "W10195416";
            cp_name := lit "Dishwasher Spray Arm";
            cp_price := lit "$32.50";
            cp_compatibility := lit "Direct Fit";
            cp_fixPercentage := 88%float |};
         {| cp_partNumber := lit "W10712395";
            cp_name := lit "Door Latch Assembly";
            cp_price := lit "$67.80";
            cp_compatibility := lit "Direct Fit";
            cp_fixPercentage := 92%float |} ];
       r_troubleshooting := None;
       r_recommendedParts := None |}
  else if includes (lit "ice maker") lowerQuery && includes (lit "not working") lowerQuery then
    {| r_type := troubleshooting;
       r_content := troubleshootingContent;
       r_partInfo := None;
       r_products := None;
       r_troubleshooting := Some [
         {| d_issue := lit "Water Supply Issue";
            d_solution := lit "Check if water supply valve is fully open. Inspect water line for kinks or freezing.";
            d_likelihood := lit "High - 35%" |};
         {| d_issue := lit "Faulty Ice Maker Assembly";
            d_solution := lit "Test the ice maker module. If it doesn't cycle, replacement may be needed.";
            d_likelihood := lit "High - 30%" |};
         {| d_issue := lit "Water Inlet Valve Problem";
            d_solution := lit "Check for proper water pressure (20-120 PSI). Test valve with multimeter.";
            d_likelihood := lit "Medium - 20%" |} ];
       r_recommendedParts := Some [
         {| rp_partNumber := lit "W10190965";
            rp_name := lit "Ice Maker Assembly";
            rp_price := lit "$124.99";
            rp_fixPercentage := 87%float;
            rp_reviews := 4.5%float |};
         {| rp_partNumber := lit "W10408179";
            rp_name := lit "Water Inlet Valve";
            rp_price := lit "$45.50";
            rp_fixPercentage := 78%float;
            rp_reviews := 4.3%float |} ] |}
  else
    {| r_type := general;
       r_content := generalContent;
       r_partInfo := None;
       r_products := None;
       r_troubleshooting := None;
       r_recommendedParts := None |}.

(** React state of the component, and the callbacks handed to
    [setTimeout] that have not run yet: each is closed over the [input]
    of the submission that scheduled it. *)
Record State : Type := {
  messages : list Message;
  input : jsstring;
  isLoading : bool;
  timers : list jsstring
}.

Definition greeting : jsstring :=
  joinLF [
    lit "Hello! I'm your PartSelect assistant for Refrigerator and Dishwasher parts. I can help you with:";
    [];
    BULLET :: lit " Installation instructions";
    BULLET :: lit " Part compatibility checks";
    BULLET :: lit " Troubleshooting issues";
    BULLET :: lit " Product recommendations";
    [];
    lit "How can I help you today?"
  ].

Definition initialState (now : Time) : State :=
  {| messages := [ {| m_type := bot; m_content := greeting;
                      m_data := None; m_timestamp := now |} ];
     input := [];
     isLoading := false;
     timers := [] |}.

(** [setInput(text)]: typing, or a quick action. *)
Definition setInput (text : jsstring) (s : State) : State :=
  {| messages := messages s; input := text;
     isLoading := isLoading s; timers := timers s |}.

(** [handleSend], up to the call of [setTimeout]. *)
Definition handleSend (now : Time) (s : State) : State :=
  if negb (truthy (trim (input s))) || isLoading s then s
  else
    let userMessage :=
      {| m_type := user; m_content := input s;
         m_data := None; m_timestamp := now |} in
    {| messages := messages s ++ [userMessage];
       input := [];
       isLoading := true;
       timers := timers s ++ [input s] |}.

(** The callback of [setTimeout], closed over [input]. *)
Definition timeoutCallback (now : Time) (input : jsstring) (s : State) : State :=
  let response := processQuery input in
  let botMessage :=
    {| m_type := bot; m_content := r_content response;
       m_data := Some response; m_timestamp := now |} in
  {| messages := messages s ++ [botMessage];
     input := PartSelectChatAgent.input s;
     isLoading := false;
     timers := timers s |}.

(** The oldest pending timer fires. *)
Definition fireTimer (now : Time) (s : State) : State :=
  match timers s with
  | [] => s
  | q :: rest =>
      timeoutCallback now q
        {| messages := messages s; input := input s;
           isLoading := isLoading s; timers := rest |}
  end.

(** One element per line of a bot message. *)
Inductive DisplayBlock : Type :=
| heading (text : jsstring)      (* font-bold *)
| bullet (text : jsstring)       (* ml-4 mb-1 *)
| numbered (text : jsstring)     (* ml-4 mb-2 *)
| link (label : jsstring)        (* anchor, href="#" *)
| paragraph (text : jsstring)    (* mb-1 *)
| blank.                         (* h-2 *)

Definition VIDEO_LABEL : jsstring := lit "[View Video Tutorial]".

(** The callback of [message.content.split('\n').map]. *)
Definition renderLine (line : jsstring) : completion DisplayBlock :=
  if startsWith (lit "**") line && endsWith (lit "**") line then
    Ok (heading (replaceBold line))
  else if startsWith [BULLET] line then
    Ok (bullet line)
  else if matchNumbered (trim line) then
    Ok (numbered line)
  else if includes VIDEO_LABEL line then
    match matchBracket line with
    | Some group1 => Ok (link group1)
    | None => Throw TypeError
    end
  else if truthy line then Ok (paragraph line)
  else Ok blank.

Definition renderContent (content : jsstring) : completion (list DisplayBlock) :=
  mapM renderLine (split LF content).

Inductive Rendered : Type :=
| UserBubble (content : jsstring)
| BotBubble (blocks : list DisplayBlock)
            (partCard : option PartInfo)
            (productCards : option (list Product))
            (troubleCards : option (list Diagnosis * option (list RecommendedPart))).

(** [a?.f]: the field of an object that may be missing. *)
Definition optField {A B} (a : option A) (f : A -> option B) : option B :=
  match a with
  | Some x => f x
  | None => None
  end.

Definition renderMessage (message : Message) : completion Rendered :=
  match m_type message with
  | user => Ok (UserBubble (m_content message))
  | bot =>
      blocks <- renderContent (m_content message) ;;
      Ok (BotBubble blocks
            (optField (m_data message) r_partInfo)
            (optField (m_data message) r_products)
            (match optField (m_data message) r_troubleshooting with
             | Some items =>
                 Some (items, optField (m_data message) r_recommendedParts)
             | None => None
             end))
  end.

(** [disabled] of the Send button: [!input.trim() || isLoading]. *)
Definition sendDisabled (s : State) : bool :=
  negb (truthy (trim (input s))) || isLoading s.

(** The quick-actions panel is rendered when [messages.length === 1]. *)
Definition showQuickActions (s : State) : bool :=
  (N.of_nat (List.length (messages s)) =? 1).

(** [quickActions]: the label of each button and the query its click
    hands to [setInput]. *)
Definition quickActions : list (jsstring * jsstring) :=
  [ (lit "Installation Help", lit "How do I install part PS11752778?");
    (lit "Check Compatibility", lit "Is this part compatible with my WDT780SAEM1 model?");
    (lit "Troubleshoot Issue", lit "My Whirlpool ice maker is not working") ].

(** What can happen to the component: the input changes (typing or a
    quick action), a submission (button or Enter key), a timer fires. *)
Inductive Event : Type :=
| Typed (text : jsstring)
| Submitted (now : Time)
| TimerFired (now : Time).

Definition step (s : State) (e : Event) : State :=
  match e with
  | Typed text => setInput text s
  | Submitted now => handleSend now s
  | TimerFired now => fireTimer now s
  end.

Definition run (es : list Event) (s : State) : State :=
  fold_left step es s.

(** The clock reading an event carries, if any. *)
Definition clockOf (e : Event) : option Time :=
  match e with
  | Typed _ => None
  | Submitted now => Some now
  | TimerFired now => Some now
  end.

End PartSelectChatAgent.

(** ** The answer service as the front-end sees it *)

Module Fetch.

(** A parsed JSON body, as a JavaScript value. *)
Inductive value : Type :=
| VUndefined
| VNull
| VBool (b : bool)
| VNumber (f : float)
| VString (s : jsstring)
| VArray (items : list value)
| VObject (fields : list (jsstring * value)).

(** How one [fetch] ends: the promise rejects (the service cannot be
    reached), or a response arrives with a status and a body; the body
    is [None] when it is not JSON. *)
Inductive Outcome : Type :=
| Rejected
| Responded (status : N) (body : option value).

Record HttpResponse : Type := {
  status : N;
  body : option value
}.

(** [res.ok] *)
Definition ok (res : HttpResponse) : bool :=
  (200 <=? status res) && (status res <=? 299).

(** [await fetch(url, init)] *)
Definition fetch (o : Outcome) : completion HttpResponse :=
  match o with
  | Rejected => Throw NetworkError
  | Responded st b => Ok {| status := st; body := b |}
  end.

(** [await res.json()] *)
Definition json (res : HttpResponse) : completion value :=
  match body res with
  | Some v => Ok v
  | None => Throw SyntaxError
  end.

Fixpoint lookup (k : jsstring) (fields : list (jsstring * value)) : value :=
  match fields with
  | [] => VUndefined
  | (k', v) :: rest => if eqs k k' then v else lookup k rest
  end.

(** [v.response]: a property read.  It throws on [null] and [undefined];
    strings, numbers, booleans and arrays have no such property. *)
Definition getResponse (v : value) : completion value :=
  match v with
  | VUndefined | VNull => Throw TypeError
  | VObject fields => Ok (lookup (lit "response") fields)
  | _ => Ok VUndefined
  end.

(** ToBoolean. *)
Definition truthy (v : value) : bool :=
  match v with
  | VUndefined | VNull => false
  | VBool b => b
  | VNumber f => negb (PrimFloat.eqb f 0%float) && PrimFloat.eqb f f
  | VString s => JS.truthy s
  | VArray _ | VObject _ => true
  end.

(** [a || b] *)
Definition or (a b : value) : value :=
  if truthy a then a else b.

(** [sendChatMessage] of [frontend/src/utils/api.js]. *)
Definition sendChatMessage (o : Outcome) : completion value :=
  res <- fetch o ;;
  if negb (ok res) then Throw (Error (lit "Failed to reach backend"))
  else json res.

End Fetch.

(** ** The page component that calls the answer service *)

Module Home.

Import Fetch.

Inductive Role : Type := user | bot.

(** [content] of a bot message is [data.response || "..."]: whatever
    value the body carries there when it is truthy.  [data] is absent on
    user and error messages. *)
Record Message : Type := {
  m_type : Role;
  m_content : value;
  m_data : option value;
  m_timestamp : Time
}.

(** React state, and the requests handed to [fetch] that have not
    settled yet. *)
Record State : Type := {
  messages : list Message;
  input : jsstring;
  isLoading : bool;
  pending : list jsstring
}.

Definition COULD_NOT_PROCESS : jsstring :=
  lit "Sorry, I couldn't process that request.".

Definition BACKEND_ERROR : jsstring :=
  lit "Sorry, I encountered an error. Please make sure the backend server is running on port 5001.".

(** [handleSend], up to [await fetch]. *)
Definition handleSend (now : Time) (s : State) : State :=
  if negb (JS.truthy (trim (input s))) || isLoading s then s
  else
    let userMessage :=
      {| m_type := user; m_content := VString (input s);
         m_data := None; m_timestamp := now |} in
    let currentQuery := input s in
    {| messages := messages s ++ [userMessage];
       input := [];
       isLoading := true;
       pending := pending s ++ [currentQuery] |}.

(** The [try] block. *)
Definition tryBlock (now : Time) (o : Outcome) : completion Message :=
  response <- fetch o ;;
  data <- json response ;;
  r <- getResponse data ;;
  Ok {| m_type := bot;
        m_content := or r (VString COULD_NOT_PROCESS);
        m_data := Some data;
        m_timestamp := now |}.

(** The [catch] block. *)
Definition errorMessage (now : Time) : Message :=
  {| m_type := bot; m_content := VString BACKEND_ERROR;
     m_data := None; m_timestamp := now |}.

(** [handleSend] from the moment the oldest pending [fetch] settles:
    [try], [catch], [finally]. *)
Definition handleSend_settle (now : Time) (o : Outcome) (s : State) : State :=
  let appended :=
    match tryBlock now o with
    | Ok botMessage => botMessage
    | Throw _ => errorMessage now
    end in
  {| messages := messages s ++ [appended];
     input := input s;
     isLoading := false;
     pending := tl (pending s) |}.

Definition greeting : jsstring :=
  joinLF [
    lit "Hello! I'm your PartSelect assistant for Refrigerator and Dishwasher parts. I can help you with:";
    [];
    [];
    lit "-- Installation instructions ";
    [];
    lit "-- Part compatibility checks";
    [];
    lit "-- Troubleshooting issues";
    [];
    lit "-- Product recommendations";
    [];
    [];
    lit "How can I help you today?"
  ].

Definition initialState (now : Time) : State :=
  {| messages := [ {| m_type := bot; m_content := VString greeting;
                      m_data := None; m_timestamp := now |} ];
     input := [];
     isLoading := false;
     pending := [] |}.

(** [setInput(e.target.value)] *)
Definition setInput (text : jsstring) (s : State) : State :=
  {| messages := messages s; input := text;
     isLoading := isLoading s; pending := pending s |}.

(** [disabled] of the Send button. *)
Definition sendDisabled (s : State) : bool :=
  negb (JS.truthy (trim (input s))) || isLoading s.

(** What can happen to the page: the input changes, a submission, the
    oldest pending [fetch] settles. *)
Inductive Event : Type :=
| Typed (text : jsstring)
| Submitted (now : Time)
| Settled (now : Time) (o : Outcome).

Definition step (s : State) (e : Event) : State :=
  match e with
  | Typed text => setInput text s
  | Submitted now => handleSend now s
  | Settled now o =>
      match pending s with
      | [] => s
      | _ :: _ => handleSend_settle now o s
      end
  end.

Definition run (es : list Event) (s : State) : State :=
  fold_left step es s.

End Home.

(** ** Vocabulary of the properties *)

Import PartSelectChatAgent.

(** The three tests of [processQuery], in the order it tries them. *)
Definition testInstallation (query : jsstring) : bool :=
  includes (lit "install") (toLowerCase query)
  && includes (lit "ps11752778") (toLowerCase query).

Definition testCompatibility (query : jsstring) : bool :=
  includes (lit "compatible") (toLowerCase query)
  && includes (lit "wdt780saem1") (toLowerCase query).

Definition testTroubleshooting (query : jsstring) : bool :=
  includes (lit "ice maker") (toLowerCase query)
  && includes (lit "not working") (toLowerCase query).

(** Ordered rule evaluation: the first rule whose test holds gives the
    intent, and [fallback] is the answer when none does. *)
Fixpoint firstMatch (rules : list ((jsstring -> bool) * Intent))
    (fallback : Intent) (query : jsstring) : Intent :=
  match rules with
  | [] => fallback
  | (test, intent) :: rest =>
      if test query then intent else firstMatch rest fallback query
  end.

Definition rules : list ((jsstring -> bool) * Intent) :=
  [ (testInstallation, installation);
    (testCompatibility, compatibility);
    (testTroubleshooting, troubleshooting) ].

(** Empty or whitespace-only text. *)
Definition blankText (s : jsstring) : bool :=
  forallb isWhiteSpace s.

Definition isSome {A} (o : option A) : bool :=
  match o with
  | Some _ => true
  | None => false
  end.

(** *** The part-number pattern in the words of the specification

    "A token beginning with letters PS followed by digits
    (case-insensitive), or a literal identifier the classifier is
    configured to recognize".  Tokens are the maximal runs of letters and
    digits of the lowercased text. *)

Definition isAlnum (c : unit16) : bool :=
  isDigit c || ((97 <=? c) && (c <=? 122)) || ((65 <=? c) && (c <=? 90)).

Fixpoint tokens (s : jsstring) : list jsstring :=
  match s with
  | [] => [[]]
  | c :: t =>
      if isAlnum c then
        match tokens t with
        | [] => [[c]]
        | l :: ls => (c :: l) :: ls
        end
      else [] :: tokens t
  end.

Definition spec_psToken (t : jsstring) : bool :=
  match t with
  | p :: s :: d :: rest =>
      (p =? 112) && (s =? 115) && isDigit d && forallb isDigit rest
  | _ => false
  end.

Definition spec_recognizedPartNumber (lowerQuery : jsstring) : bool :=
  existsb spec_psToken (tokens lowerQuery)
  || includes (lit "ps11752778") lowerQuery.

Definition spec_installationRule (query : jsstring) : bool :=
  includes (lit "install") (toLowerCase query)
  && spec_recognizedPartNumber (toLowerCase query).

(** *** The model-number pattern in the words of the specification

    "An alphanumeric token of length at least 6 mixing letters and digits,
    excluding tokens already matched as part numbers", or the literal
    model identifier the classifier is configured with. *)

Definition isLetter (c : unit16) : bool :=
  ((97 <=? c) && (c <=? 122)) || ((65 <=? c) && (c <=? 90)).

Definition spec_modelToken (t : jsstring) : bool :=
  (6 <=? N.of_nat (List.length t))
  && existsb isLetter t && existsb isDigit t
  && negb (spec_psToken t).

Definition spec_recognizedModelNumber (lowerQuery : jsstring) : bool :=
  existsb spec_modelToken (tokens lowerQuery)
  || includes (lit "wdt780saem1") lowerQuery.

Definition spec_compatibilityRule (query : jsstring) : bool :=
  includes (lit "compatible") (toLowerCase query)
  && spec_recognizedModelNumber (toLowerCase query).

(** *** The link line in the words of the specification

    "A line containing a bracketed label followed immediately by a
    parenthesized target": the label of the first such group of the
    line. *)

Definition LPAREN : unit16 := 40.
Definition RPAREN : unit16 := 41.

(** The text before the first [stop], and the text after it. *)
Fixpoint untilUnit (stop : unit16) (s : jsstring) : option (jsstring * jsstring) :=
  match s with
  | [] => None
  | c :: t =>
      if c =? stop then Some ([], t)
      else match untilUnit stop t with
           | Some (pre, post) => Some (c :: pre, post)
           | None => None
           end
  end.

Definition spec_linkAt (s : jsstring) : option jsstring :=
  match s with
  | [] => None
  | c :: t =>
      if c =? LBRACKET then
        match untilUnit RBRACKET t with
        | Some (label, p :: target) =>
            if p =? LPAREN then
              match untilUnit RPAREN target with
              | Some _ => Some label
              | None => None
              end
            else None
        | _ => None
        end
      else None
  end.

Fixpoint spec_linkLabel (s : jsstring) : option jsstring :=
  match spec_linkAt s with
  | Some label => Some label
  | None =>
      match s with
      | [] => None
      | _ :: t => spec_linkLabel t
      end
  end.

(** The narrative text of the rendering scenario:
    two stars, Title, two stars, newline, bullet item, newline,
    1. step, newline. *)
Definition scenarioText : jsstring :=
  lit "**Title**" ++ LF :: (BULLET :: lit " item") ++ LF :: lit "1. step" ++ [LF].

(** *** Transcripts

    Entries as the prototype builds them. *)

Definition userEntry (text : jsstring) (at_ : Time) : PartSelectChatAgent.Message :=
  {| PartSelectChatAgent.m_type := PartSelectChatAgent.user;
     PartSelectChatAgent.m_content := text;
     PartSelectChatAgent.m_data := None;
     PartSelectChatAgent.m_timestamp := at_ |}.

Definition botEntry (text : jsstring) (at_ : Time) : PartSelectChatAgent.Message :=
  {| PartSelectChatAgent.m_type := PartSelectChatAgent.bot;
     PartSelectChatAgent.m_content := r_content (processQuery text);
     PartSelectChatAgent.m_data := Some (processQuery text);
     PartSelectChatAgent.m_timestamp := at_ |}.

(** A run of complete exchanges: each user entry holds text that is not
    blank and is followed by the answer [processQuery] gives to that
    text. *)
Inductive exchanges : list PartSelectChatAgent.Message -> Prop :=
| exchanges_nil : exchanges []
| exchanges_snoc (l : list PartSelectChatAgent.Message) (text : jsstring)
    (asked answeredAt : Time) :
    exchanges l ->
    blankText text = false ->
    exchanges (l ++ [userEntry text asked; botEntry text answeredAt]).

(** Clock readings that never go back. *)
Fixpoint nondecreasing (ts : list Time) : bool :=
  match ts with
  | [] => true
  | a :: rest =>
      match rest with
      | [] => true
      | b :: _ => (a <=? b) && nondecreasing rest
      end
  end.

Fixpoint clockReadings (es : list PartSelectChatAgent.Event) : list Time :=
  match es with
  | [] => []
  | e :: rest =>
      match PartSelectChatAgent.clockOf e with
      | Some t => t :: clockReadings rest
      | None => clockReadings rest
      end
  end.

(** The roles of a transcript of the page: the greeting, [n] exchanges,
    and the user entry of the exchange under way when [awaiting]. *)
Fixpoint exchangeRoles (n : nat) : list Home.Role :=
  match n with
  | O => []
  | S k => Home.user :: Home.bot :: exchangeRoles k
  end.

Definition transcriptRoles (n : nat) (awaiting : bool) : list Home.Role :=
  Home.bot :: exchangeRoles n ++ (if awaiting then [Home.user] else []).

(** The states the prototype can be in, [t0] being the time of the
    greeting: after the greeting come complete exchanges; either nothing
    is under way, or the last entry is a user entry whose text is the one
    the single pending timer is closed over. *)
Definition coherent (t0 : Time) (s : PartSelectChatAgent.State) : Prop :=
  exists l,
    exchanges l
    /\ ((PartSelectChatAgent.isLoading s = false
         /\ timers s = []
         /\ PartSelectChatAgent.messages s
            = PartSelectChatAgent.messages (PartSelectChatAgent.initialState t0) ++ l)
        \/ (exists text asked,
              PartSelectChatAgent.isLoading s = true
              /\ timers s = [text]
              /\ blankText text = false
              /\ PartSelectChatAgent.messages s
                 = PartSelectChatAgent.messages (PartSelectChatAgent.initialState t0)
                   ++ l ++ [userEntry text asked])).

(** A reply of the answer service with status 500 and a JSON body that
    reports the failure, and one whose body has a [response] field. *)
Definition errorBody : Fetch.value :=
  Fetch.VObject [ (lit "error", Fetch.VString (lit "Internal Server Error")) ].

Definition errorBodyWithResponse : Fetch.value :=
  Fetch.VObject [ (lit "response", Fetch.VString (lit "Internal Server Error")) ].

(** ** Properties of the classifier and the composer *)

Lemma processQuery_type (query : jsstring) :
  r_type (processQuery query) = firstMatch rules general query.
Proof.
  unfold processQuery, rules, firstMatch,
    testInstallation, testCompatibility, testTroubleshooting.
  cbv zeta.
  destruct (includes (lit "install") (toLowerCase query)
            && includes (lit "ps11752778") (toLowerCase query)); [reflexivity|].
  destruct (includes (lit "compatible") (toLowerCase query)
            && includes (lit "wdt780saem1") (toLowerCase query)); [reflexivity|].
  destruct (includes (lit "ice maker") (toLowerCase query)
            && includes (lit "not working") (toLowerCase query)); reflexivity.
Qed.

(** C1, as amended.  Every query whose lowercased text contains
    "install" and the literal part identifier "ps11752778" is classified
    as [installation], and the payload carries the part PS11752778. *)
Theorem installation_on_configured_part (query : jsstring) :
  includes (lit "install") (toLowerCase query) = true ->
  includes (lit "ps11752778") (toLowerCase query) = true ->
  r_type (processQuery query) = installation
  /\ option_map pi_partNumber (r_partInfo (processQuery query))
     = Some (lit "PS11752778").
Proof.
  intros Hkw Hpart.
  unfold processQuery; cbv zeta.
  rewrite Hkw, Hpart.
  split; reflexivity.
Qed.

Lemma installation_on_configured_part_witness :
  let query := lit "How do I install part PS11752778?" in
  r_type (processQuery query) = installation
  /\ option_map pi_partNumber (r_partInfo (processQuery query))
     = Some (lit "PS11752778").
Proof.
  apply (installation_on_configured_part (lit "How do I install part PS11752778?"));
    vm_compute; reflexivity.
Defined.

(** C1, as stated, fails: a query with the keyword and a token PS123 meets
    the stated rule, and the classifier answers [general]. *)
Lemma installation_pattern_counterexample :
  let query := lit "How do I install part PS123?" in
  spec_installationRule query = true
  /\ r_type (processQuery query) = general.
Proof.
  split; vm_compute; reflexivity.
Qed.

(** C2, as stated, fails: a query with the installation keyword and the
    token PS123, and with the compatibility keyword and the model
    WDT780SAEM1, meets both stated rules, and the classifier answers
    [compatibility]. *)
Lemma rule_order_counterexample :
  let query := lit "How do I install part PS123? Is it compatible with WDT780SAEM1?" in
  spec_installationRule query = true
  /\ spec_compatibilityRule query = true
  /\ r_type (processQuery query) = compatibility.
Proof.
  repeat split; vm_compute; reflexivity.
Qed.

(** C2, as amended.  The intent is the one of the first test of
    [processQuery] that holds, in the order installation, compatibility,
    troubleshooting, with [general] as the fallback; so a query that
    passes both the installation test (it contains "install" and the
    literal "ps11752778") and the compatibility test (it contains
    "compatible" and the literal "wdt780saem1") is classified as
    [installation]. *)
Theorem rule_order_precedence (query : jsstring) :
  r_type (processQuery query) = firstMatch rules general query
  /\ (testInstallation query = true ->
      testCompatibility query = true ->
      r_type (processQuery query) = installation).
Proof.
  split; [apply processQuery_type|].
  intros Hinst _.
  rewrite processQuery_type.
  unfold rules, firstMatch.
  rewrite Hinst; reflexivity.
Qed.

Lemma rule_order_precedence_witness :
  let query := lit "Is PS11752778 compatible with WDT780SAEM1, and how do I install it?" in
  testInstallation query = true
  /\ testCompatibility query = true
  /\ r_type (processQuery query) = installation.
Proof.
  cbv zeta.
  split; [vm_compute; reflexivity|].
  split; [vm_compute; reflexivity|].
  apply (proj2 (rule_order_precedence
    (lit "Is PS11752778 compatible with WDT780SAEM1, and how do I install it?")));
    vm_compute; reflexivity.
Defined.

Lemma fallback_when_no_test_holds (query : jsstring) :
  testInstallation query = false ->
  testCompatibility query = false ->
  testTroubleshooting query = false ->
  processQuery query
  = {| r_type := general; r_content := generalContent;
       r_partInfo := None; r_products := None;
       r_troubleshooting := None; r_recommendedParts := None |}.
Proof.
  unfold testInstallation, testCompatibility, testTroubleshooting.
  intros H1 H2 H3.
  unfold processQuery; cbv zeta.
  rewrite H1, H2, H3; reflexivity.
Qed.

Lemma trimStart_blank (s : jsstring) :
  blankText s = true -> trimStart s = [].
Proof.
  induction s as [|c t IH]; simpl; [reflexivity|].
  intros H; apply andb_true_iff in H as [Hc Ht].
  rewrite Hc; auto.
Qed.

Lemma trim_blank (s : jsstring) :
  blankText s = true -> trim s = [].
Proof.
  intros H; unfold trim, trimEnd.
  rewrite (trimStart_blank s H); reflexivity.
Qed.

(** Conversely, [trim] leaves nothing only of blank text. *)
Lemma trimStart_nil_blank (s : jsstring) :
  trimStart s = [] -> blankText s = true.
Proof.
  induction s as [|c t IH]; simpl; [reflexivity|].
  destruct (isWhiteSpace c); [intros; simpl; auto | discriminate].
Qed.

Lemma trimStart_suffix (s : jsstring) :
  exists pre, s = pre ++ trimStart s /\ blankText pre = true.
Proof.
  induction s as [|c t [pre [Heq Hpre]]]; simpl.
  - exists []; split; reflexivity.
  - destruct (isWhiteSpace c) eqn:Hc.
    + exists (c :: pre); split; [simpl; f_equal; exact Heq|].
      simpl; rewrite Hc; exact Hpre.
    + exists []; split; reflexivity.
Qed.

Lemma blankText_app (a b : jsstring) :
  blankText (a ++ b) = blankText a && blankText b.
Proof. unfold blankText; apply forallb_app. Qed.

Lemma blankText_rev (s : jsstring) :
  blankText (rev s) = blankText s.
Proof.
  induction s as [|c t IH]; [reflexivity|].
  simpl rev; rewrite blankText_app, IH; simpl.
  rewrite andb_true_r; apply andb_comm.
Qed.

Lemma trim_nil_blank (s : jsstring) :
  trim s = [] -> blankText s = true.
Proof.
  unfold trim, trimEnd; intros H.
  assert (Hr : trimStart (rev (trimStart s)) = []).
  { destruct (trimStart (rev (trimStart s))) as [|x l] eqn:E; [reflexivity|].
    simpl in H; destruct (rev l); discriminate. }
  apply trimStart_nil_blank in Hr.
  rewrite blankText_rev in Hr.
  destruct (trimStart_suffix s) as [pre [Heq Hpre]].
  rewrite Heq, blankText_app, Hpre, Hr; reflexivity.
Qed.

(** C3.  A query that passes none of the three tests gets the [general]
    answer; the empty string is such a query; and a submission of empty
    or whitespace-only input ends at the guard of [handleSend]: the state
    is returned as it was, so no timer is scheduled and [processQuery] is
    not run for it. *)
Theorem fallback_totality :
  (forall query,
      testInstallation query = false ->
      testCompatibility query = false ->
      testTroubleshooting query = false ->
      r_type (processQuery query) = general)
  /\ r_type (processQuery []) = general
  /\ (forall now s,
        blankText (input s) = true ->
        handleSend now s = s /\ timers (handleSend now s) = timers s).
Proof.
  split; [|split].
  - intros query H1 H2 H3.
    rewrite (fallback_when_no_test_holds query H1 H2 H3); reflexivity.
  - reflexivity.
  - intros now s Hblank.
    assert (Hs : handleSend now s = s).
    { unfold handleSend. rewrite (trim_blank _ Hblank); reflexivity. }
    rewrite Hs; split; reflexivity.
Qed.

Lemma fallback_totality_witness :
  r_type (processQuery (lit "What is your return policy?")) = general
  /\ handleSend 1000 (setInput (lit "   ") (initialState 0))
     = setInput (lit "   ") (initialState 0).
Proof.
  split.
  - apply (proj1 fallback_totality (lit "What is your return policy?"));
      vm_compute; reflexivity.
  - apply (proj2 (proj2 fallback_totality) 1000
             (setInput (lit "   ") (initialState 0))).
    vm_compute; reflexivity.
Defined.

(** C4.  In every response of [processQuery] each attachment is present
    exactly under its own tag: [partInfo] with [installation], [products]
    with [compatibility], [troubleshooting] and [recommendedParts] with
    [troubleshooting], and nothing but the narrative text with
    [general]. *)
Theorem payload_invariant (query : jsstring) :
  let r := processQuery query in
  (isSome (r_partInfo r) = true <-> r_type r = installation)
  /\ (isSome (r_products r) = true <-> r_type r = compatibility)
  /\ (isSome (r_troubleshooting r) = true <-> r_type r = troubleshooting)
  /\ (isSome (r_recommendedParts r) = true <-> r_type r = troubleshooting)
  /\ (r_type r = general ->
      r_partInfo r = None /\ r_products r = None
      /\ r_troubleshooting r = None /\ r_recommendedParts r = None)
  /\ JS.truthy (r_content r) = true.
Proof.
  unfold processQuery; cbv zeta.
  destruct (includes (lit "install") (toLowerCase query)
            && includes (lit "ps11752778") (toLowerCase query));
    [|destruct (includes (lit "compatible") (toLowerCase query)
                && includes (lit "wdt780saem1") (toLowerCase query));
      [|destruct (includes (lit "ice maker") (toLowerCase query)
                  && includes (lit "not working") (toLowerCase query))]];
    cbn [r_type r_partInfo r_products r_troubleshooting r_recommendedParts
         r_content isSome];
    repeat split; intros; try discriminate; try reflexivity.
Qed.

Lemma payload_invariant_witness :
  let r := processQuery (lit "Is this compatible with WDT780SAEM1?") in
  r_type r = compatibility
  /\ isSome (r_products r) = true
  /\ isSome (r_partInfo r) = false.
Proof.
  pose proof (payload_invariant (lit "Is this compatible with WDT780SAEM1?")) as H.
  cbv zeta in H.
  destruct H as (_ & Hprod & _).
  split; [vm_compute; reflexivity|].
  split; [apply Hprod; vm_compute; reflexivity | vm_compute; reflexivity].
Defined.

(** ** Properties of the controllers *)

(** C6.  A submission of empty or whitespace-only input, and any
    submission made while an answer is awaited, is a no-op: [handleSend]
    returns the state as it was, so the transcript has no new entry, the
    awaiting flag keeps its value and nothing is dispatched.  This holds
    for the prototype controller and for the one that calls the answer
    service. *)
Theorem rejected_submission_is_noop :
  (forall now s,
      blankText (PartSelectChatAgent.input s) = true
      \/ PartSelectChatAgent.isLoading s = true ->
      PartSelectChatAgent.handleSend now s = s)
  /\ (forall now s,
        blankText (Home.input s) = true \/ Home.isLoading s = true ->
        Home.handleSend now s = s).
Proof.
  split; intros now s [Hblank | Hbusy].
  - unfold PartSelectChatAgent.handleSend.
    rewrite (trim_blank _ Hblank); reflexivity.
  - unfold PartSelectChatAgent.handleSend.
    rewrite Hbusy, orb_true_r; reflexivity.
  - unfold Home.handleSend.
    rewrite (trim_blank _ Hblank); reflexivity.
  - unfold Home.handleSend.
    rewrite Hbusy, orb_true_r; reflexivity.
Qed.

Lemma rejected_submission_is_noop_witness :
  let idle := setInput (lit "   ") (initialState 0) in
  let busy :=
    setInput (lit "and another thing")
      (PartSelectChatAgent.handleSend 5
         (setInput (lit "How do I install part PS11752778?") (initialState 0))) in
  PartSelectChatAgent.handleSend 7 idle = idle
  /\ PartSelectChatAgent.isLoading busy = true
  /\ PartSelectChatAgent.handleSend 7 busy = busy.
Proof.
  cbv zeta.
  split; [|split].
  - apply (proj1 rejected_submission_is_noop 7
             (setInput (lit "   ") (initialState 0))).
    left; vm_compute; reflexivity.
  - vm_compute; reflexivity.
  - apply (proj1 rejected_submission_is_noop 7
             (setInput (lit "and another thing")
                (PartSelectChatAgent.handleSend 5
                   (setInput (lit "How do I install part PS11752778?")
                      (initialState 0))))).
    right; vm_compute; reflexivity.
Defined.

(** The guard of [handleSend] rejects nothing else: from an idle state
    with input that is not blank, the user entry is appended. *)
Lemma accepted_submission (now : Time) (s : PartSelectChatAgent.State) :
  blankText (PartSelectChatAgent.input s) = false ->
  PartSelectChatAgent.isLoading s = false ->
  PartSelectChatAgent.messages (PartSelectChatAgent.handleSend now s)
  = PartSelectChatAgent.messages s
    ++ [ {| PartSelectChatAgent.m_type := PartSelectChatAgent.user;
            PartSelectChatAgent.m_content := PartSelectChatAgent.input s;
            PartSelectChatAgent.m_data := None;
            PartSelectChatAgent.m_timestamp := now |} ].
Proof.
  intros Hblank Hidle.
  unfold PartSelectChatAgent.handleSend.
  destruct (trim (PartSelectChatAgent.input s)) as [|c t] eqn:E.
  - apply trim_nil_blank in E; congruence.
  - rewrite Hidle; reflexivity.
Qed.

(** One exchange of the prototype: the submission appends the user entry
    and raises the awaiting flag; when the timer fires, the answer of
    [processQuery] for the submitted text is appended with its payload
    and the flag is cleared. *)
Lemma exchange_cycle (now later : Time) (s : PartSelectChatAgent.State) :
  blankText (PartSelectChatAgent.input s) = false ->
  PartSelectChatAgent.isLoading s = false ->
  timers s = [] ->
  let query := PartSelectChatAgent.input s in
  fireTimer later (PartSelectChatAgent.handleSend now s)
  = {| PartSelectChatAgent.messages :=
         (PartSelectChatAgent.messages s
          ++ [ {| PartSelectChatAgent.m_type := PartSelectChatAgent.user;
                  PartSelectChatAgent.m_content := query;
                  PartSelectChatAgent.m_data := None;
                  PartSelectChatAgent.m_timestamp := now |} ])
         ++ [ {| PartSelectChatAgent.m_type := PartSelectChatAgent.bot;
                 PartSelectChatAgent.m_content := r_content (processQuery query);
                 PartSelectChatAgent.m_data := Some (processQuery query);
                 PartSelectChatAgent.m_timestamp := later |} ];
       PartSelectChatAgent.input := [];
       PartSelectChatAgent.isLoading := false;
       timers := [] |}.
Proof.
  intros Hblank Hidle Htimers query.
  unfold PartSelectChatAgent.handleSend.
  destruct (trim (PartSelectChatAgent.input s)) as [|c t] eqn:E.
  - apply trim_nil_blank in E; congruence.
  - rewrite Hidle; simpl.
    unfold fireTimer; simpl. rewrite Htimers; reflexivity.
Qed.

(** ** Properties of the renderer *)

(** C7, as stated, fails: the three blocks are not the whole result. *)
Lemma scenario_blocks_counterexample :
  renderContent scenarioText
  <> Ok [ heading (lit "Title");
          bullet (BULLET :: lit " item");
          numbered (lit "1. step") ].
Proof.
  vm_compute; discriminate.
Qed.

(** C7, as amended.  The scenario text renders to the heading "Title"
    (bold delimiters stripped), the bullet line and the numbered line, in
    that order, followed by one [blank] block: the text ends in a newline,
    and [split] yields the empty string after it. *)
Theorem scenario_blocks :
  renderContent scenarioText
  = Ok [ heading (lit "Title");
         bullet (BULLET :: lit " item");
         numbered (lit "1. step");
         blank ].
Proof.
  vm_compute; reflexivity.
Qed.

(** Without the final newline the three blocks are the whole result. *)
Lemma scenario_blocks_no_final_newline :
  renderContent
    (lit "**Title**" ++ LF :: (BULLET :: lit " item") ++ LF :: lit "1. step")
  = Ok [ heading (lit "Title");
         bullet (BULLET :: lit " item");
         numbered (lit "1. step") ].
Proof.
  vm_compute; reflexivity.
Qed.

Lemma startsWith_app (p s : jsstring) :
  startsWith p s = true -> exists rest, s = p ++ rest.
Proof.
  revert s; induction p as [|x p IH]; intros s H.
  - exists s; reflexivity.
  - destruct s as [|y s]; [discriminate|].
    simpl in H; apply andb_true_iff in H as [Hxy Hp].
    apply N.eqb_eq in Hxy; subst y.
    destruct (IH s Hp) as [rest ->].
    exists rest; reflexivity.
Qed.

Lemma startsWith_prefix (p rest : jsstring) :
  startsWith p (p ++ rest) = true.
Proof.
  induction p as [|x p IH]; [reflexivity|].
  simpl; rewrite N.eqb_refl; exact IH.
Qed.

Lemma lazyGroup_sound (s g : jsstring) :
  lazyGroup s = Some g ->
  (exists post, s = g ++ RBRACKET :: post)
  /\ forallb (fun c => negb (c =? RBRACKET) && negb (isLineTerminator c)) g = true.
Proof.
  revert g; induction s as [|c t IH]; intros g H; [discriminate|].
  simpl in H.
  destruct (c =? RBRACKET) eqn:Hc.
  - injection H as <-. apply N.eqb_eq in Hc; subst c.
    split; [exists t; reflexivity | reflexivity].
  - destruct (isLineTerminator c) eqn:Hlt; [discriminate|].
    destruct (lazyGroup t) as [g'|]; [|discriminate].
    injection H as <-.
    destruct (IH g' eq_refl) as [[post ->] Hall].
    split; [exists post; reflexivity|].
    simpl; rewrite Hc, Hlt; exact Hall.
Qed.

(** What [match] returns as group 1 is a bracketed label of the line: the
    text between an opening bracket and the first closing bracket after
    it. *)
Lemma matchBracket_sound (s g : jsstring) :
  matchBracket s = Some g ->
  (exists pre post, s = pre ++ LBRACKET :: g ++ RBRACKET :: post)
  /\ forallb (fun c => negb (c =? RBRACKET) && negb (isLineTerminator c)) g = true.
Proof.
  induction s as [|c t IH]; intros H; [discriminate|].
  simpl in H.
  assert (Hrec : matchBracket t = Some g ->
                 (exists pre post, c :: t = pre ++ LBRACKET :: g ++ RBRACKET :: post)
                 /\ forallb (fun c => negb (c =? RBRACKET) && negb (isLineTerminator c)) g = true).
  { intros Ht. destruct (IH Ht) as [[pre [post ->]] Hall].
    split; [exists (c :: pre), post; reflexivity | exact Hall]. }
  destruct (c =? LBRACKET) eqn:Hc; [|auto].
  destruct (lazyGroup t) as [g'|] eqn:Hg; [|auto].
  injection H as <-. apply N.eqb_eq in Hc; subst c.
  destruct (lazyGroup_sound t g' Hg) as [[post ->] Hall].
  split; [exists [], post; reflexivity | exact Hall].
Qed.

Lemma matchBracket_video_prefix (rest : jsstring) :
  matchBracket (VIDEO_LABEL ++ rest) = Some (lit "View Video Tutorial").
Proof. reflexivity. Qed.

(** Where the line contains the literal label, the pattern matches. *)
Lemma includes_video_match (s : jsstring) :
  includes VIDEO_LABEL s = true -> exists g, matchBracket s = Some g.
Proof.
  induction s as [|c t IH]; intros H.
  - discriminate.
  - simpl in H. apply orb_true_iff in H as [Hhere | Hlater].
    + destruct (startsWith_app VIDEO_LABEL (c :: t) Hhere) as [rest ->].
      eexists; apply matchBracket_video_prefix.
    + destruct (IH Hlater) as [g Hg].
      simpl. destruct (c =? LBRACKET); [|eauto].
      destruct (lazyGroup t); eauto.
Qed.

Lemma trimStart_snoc (l : jsstring) (c : unit16) :
  isWhiteSpace c = false -> exists l', trimStart (l ++ [c]) = l' ++ [c].
Proof.
  intros Hc; induction l as [|x l [l' IH]]; simpl.
  - rewrite Hc; exists []; reflexivity.
  - destruct (isWhiteSpace x).
    + exists l'; exact IH.
    + exists (x :: l); reflexivity.
Qed.

(** [trim] keeps a first code unit that is not white space. *)
Lemma trim_head (c : unit16) (t : jsstring) :
  isWhiteSpace c = false -> exists t', trim (c :: t) = c :: t'.
Proof.
  intros Hc; unfold trim, trimEnd.
  simpl trimStart; rewrite Hc.
  simpl rev.
  destruct (trimStart_snoc (rev t) c Hc) as [l' ->].
  rewrite rev_app_distr; simpl.
  exists (rev l'); reflexivity.
Qed.

Lemma includes_here (p s : jsstring) :
  startsWith p s = true -> includes p s = true.
Proof.
  intros H; destruct s; simpl; rewrite H; reflexivity.
Qed.

(** A line that begins with the literal label. *)
Lemma renderLine_video_prefix (rest : jsstring) :
  renderLine (VIDEO_LABEL ++ rest) = Ok (link (lit "View Video Tutorial")).
Proof.
  unfold renderLine.
  replace (startsWith (lit "**") (VIDEO_LABEL ++ rest)) with false by reflexivity.
  replace (startsWith [BULLET] (VIDEO_LABEL ++ rest)) with false by reflexivity.
  cbn [andb].
  destruct (trim_head LBRACKET (lit "View Video Tutorial]" ++ rest) eq_refl)
    as [t' Ht].
  change (VIDEO_LABEL ++ rest)
    with (LBRACKET :: lit "View Video Tutorial]" ++ rest) at 1.
  rewrite Ht.
  replace (matchNumbered (LBRACKET :: t')) with false by reflexivity.
  rewrite (includes_here _ _ (startsWith_prefix VIDEO_LABEL rest)).
  rewrite matchBracket_video_prefix; reflexivity.
Qed.

Lemma includes_app_l (p a s : jsstring) :
  includes p s = true -> includes p (a ++ s) = true.
Proof.
  intros H; induction a as [|c a IH]; [exact H|].
  simpl; rewrite IH; apply orb_true_r.
Qed.

Lemma lazyGroup_complete (g post : jsstring) :
  forallb (fun c => negb (c =? RBRACKET) && negb (isLineTerminator c)) g = true ->
  lazyGroup (g ++ RBRACKET :: post) = Some g.
Proof.
  induction g as [|c g IH]; intros H.
  - reflexivity.
  - cbn [forallb] in H. apply andb_true_iff in H as [Hc Hg].
    apply andb_true_iff in Hc as [Hb Hlt].
    apply negb_true_iff in Hb, Hlt.
    simpl. rewrite Hb, Hlt, (IH Hg); reflexivity.
Qed.

Lemma matchBracket_first (pre g post : jsstring) :
  existsb (N.eqb LBRACKET) pre = false ->
  forallb (fun c => negb (c =? RBRACKET) && negb (isLineTerminator c)) g = true ->
  matchBracket (pre ++ LBRACKET :: g ++ RBRACKET :: post) = Some g.
Proof.
  intros Hpre Hg. induction pre as [|c pre IH].
  - simpl. rewrite (lazyGroup_complete g post Hg); reflexivity.
  - cbn [existsb] in Hpre. apply orb_false_iff in Hpre as [Hc Hpre].
    simpl. rewrite (N.eqb_sym c LBRACKET), Hc. exact (IH Hpre).
Qed.

(** C8, as stated, fails: a line with a bracketed label and a
    parenthesized target, whose label is not the one literal label of the
    renderer, comes out as a paragraph. *)
Lemma link_line_counterexample :
  let line := lit "[Docs](https://www.partselect.com/docs)" in
  spec_linkLabel line = Some (lit "Docs")
  /\ renderLine line = Ok (paragraph line).
Proof.
  split; vm_compute; reflexivity.
Qed.

(** C8, as amended.  A line that contains the literal label
    "[View Video Tutorial]" with no opening bracket before it, and that is
    not taken as a heading, a bullet or a numbered line, is rendered as a
    [link] whose display text is exactly the label, "View Video
    Tutorial": what follows the label, a parenthesized target included,
    is dropped.  A line that begins with the label is always such a
    line. *)
Theorem link_line_label :
  (forall pre rest,
      let line := pre ++ VIDEO_LABEL ++ rest in
      existsb (N.eqb LBRACKET) pre = false ->
      startsWith (lit "**") line && endsWith (lit "**") line = false ->
      startsWith [BULLET] line = false ->
      matchNumbered (trim line) = false ->
      renderLine line = Ok (link (lit "View Video Tutorial")))
  /\ (forall rest,
        renderLine (VIDEO_LABEL ++ rest) = Ok (link (lit "View Video Tutorial"))).
Proof.
  split; [|exact renderLine_video_prefix].
  intros pre rest line Hpre Hhead Hbullet Hnum.
  assert (Hvideo : includes VIDEO_LABEL line = true).
  { apply includes_app_l, includes_here, startsWith_prefix. }
  assert (Hm : matchBracket line = Some (lit "View Video Tutorial")).
  { exact (matchBracket_first pre (lit "View Video Tutorial") rest Hpre eq_refl). }
  unfold renderLine. rewrite Hhead, Hbullet, Hnum, Hvideo, Hm; reflexivity.
Qed.

Lemma link_line_label_witness :
  renderLine (lit "Watch: " ++ VIDEO_LABEL ++ lit "(https://www.partselect.com/PS11752778)")
  = Ok (link (lit "View Video Tutorial")).
Proof.
  apply (proj1 link_line_label (lit "Watch: ")
           (lit "(https://www.partselect.com/PS11752778)"));
    vm_compute; reflexivity.
Defined.

(** The installation guide of [processQuery] renders without exception,
    and its last line, the one link of the prototype, shows the label
    only. *)
Lemma installation_guide_link :
  exists blocks,
    renderContent installationContent = Ok blocks
    /\ List.length blocks = 21%nat
    /\ last blocks blank = link (lit "View Video Tutorial").
Proof.
  eexists; split; [vm_compute; reflexivity|].
  split; vm_compute; reflexivity.
Qed.

Lemma mapM_total {A B} (f : A -> completion B) (l : list A) :
  (forall a, exists b, f a = Ok b) ->
  exists bs, mapM f l = Ok bs /\ List.length bs = List.length l.
Proof.
  intros Hf; induction l as [|a t [bs [Hbs Hlen]]].
  - exists []; split; reflexivity.
  - destruct (Hf a) as [b Hb].
    exists (b :: bs); simpl.
    rewrite Hb; simpl. rewrite Hbs; simpl.
    split; [reflexivity | f_equal; exact Hlen].
Qed.

Lemma renderLine_total (line : jsstring) :
  exists b, renderLine line = Ok b.
Proof.
  unfold renderLine.
  destruct (startsWith (lit "**") line && endsWith (lit "**") line); [eauto|].
  destruct (startsWith [BULLET] line); [eauto|].
  destruct (matchNumbered (trim line)); [eauto|].
  destruct (includes VIDEO_LABEL line) eqn:Hvideo.
  - destruct (includes_video_match line Hvideo) as [g ->]; eauto.
  - destruct (truthy line); eauto.
Qed.

(** C9.  The renderer is total: every line yields one block and no
    exception, a text yields one block per line, and every bot message
    renders; on the link branch (the line contains
    "[View Video Tutorial]") the pattern for the bracketed label has a
    match, so reading its group 1 does not read from [null]. *)
Theorem renderer_total :
  (forall line, exists b, renderLine line = Ok b)
  /\ (forall content,
        exists blocks,
          renderContent content = Ok blocks
          /\ List.length blocks = List.length (split LF content))
  /\ (forall message, exists r, renderMessage message = Ok r)
  /\ (forall line,
        includes VIDEO_LABEL line = true ->
        exists group1, matchBracket line = Some group1).
Proof.
  split; [exact renderLine_total|].
  split; [intros content; apply mapM_total; exact renderLine_total|].
  split; [|exact includes_video_match].
  intros message; unfold renderMessage.
  destruct (m_type message); [eauto|].
  destruct (mapM_total renderLine (split LF (m_content message)) renderLine_total)
    as [blocks [Hb _]].
  unfold renderContent; rewrite Hb; simpl; eauto.
Qed.

Lemma renderer_total_witness :
  exists group1,
    matchBracket (lit "see [a] and [View Video Tutorial](x)") = Some group1.
Proof.
  apply (proj2 (proj2 (proj2 renderer_total))
           (lit "see [a] and [View Video Tutorial](x)")).
  vm_compute; reflexivity.
Defined.

(** ** Properties of the controller that calls the answer service *)

Import Fetch.

(** The status of a response is never read by [Home.handleSend]. *)
Lemma settle_ignores_status (now : Time) (st st' : N) (b : option value)
    (s : Home.State) :
  Home.handleSend_settle now (Responded st b) s
  = Home.handleSend_settle now (Responded st' b) s.
Proof. reflexivity. Qed.

(** A rejected [fetch], a body that is not JSON, and the body [null] end
    in the [catch] block: one bot entry with the fixed error text, and the
    awaiting flag cleared. *)
Lemma settle_on_exception (now : Time) (o : Outcome) (s : Home.State) :
  o = Rejected
  \/ (exists st, o = Responded st None)
  \/ (exists st, o = Responded st (Some VNull)) ->
  Home.handleSend_settle now o s
  = {| Home.messages := Home.messages s ++ [Home.errorMessage now];
       Home.input := Home.input s;
       Home.isLoading := false;
       Home.pending := tl (Home.pending s) |}.
Proof.
  intros [-> | [[st ->] | [st ->]]]; reflexivity.
Qed.

(** [sendChatMessage] rejects every response whose status is not a
    success status, whatever its body. *)
Lemma sendChatMessage_non_success (st : N) (b : option value) :
  (200 <=? st) && (st <=? 299) = false ->
  sendChatMessage (Responded st b) = Throw (Error (lit "Failed to reach backend")).
Proof.
  intros H; unfold sendChatMessage; simpl.
  unfold ok; simpl. rewrite H; reflexivity.
Qed.

(** C5, evaluated where the code departs from it.  A reply with status
    500 and a well-formed JSON body goes through the success path of
    [Home.handleSend]: the entry it appends carries the fixed text
    "Sorry, I couldn't process that request." and the body as payload, or
    the [response] text of the body when there is one; it is not the
    error entry of the [catch] block.  [sendChatMessage], given the same
    reply, throws. *)
Theorem non_success_status_taken_as_answer (now : Time) (s : Home.State) :
  ok {| status := 500; body := Some errorBody |} = false
  /\ Home.handleSend_settle now (Responded 500 (Some errorBody)) s
     = {| Home.messages :=
            Home.messages s
            ++ [ {| Home.m_type := Home.bot;
                    Home.m_content := VString Home.COULD_NOT_PROCESS;
                    Home.m_data := Some errorBody;
                    Home.m_timestamp := now |} ];
          Home.input := Home.input s;
          Home.isLoading := false;
          Home.pending := tl (Home.pending s) |}
  /\ Home.messages
       (Home.handleSend_settle now (Responded 500 (Some errorBodyWithResponse)) s)
     = Home.messages s
       ++ [ {| Home.m_type := Home.bot;
               Home.m_content := VString (lit "Internal Server Error");
               Home.m_data := Some errorBodyWithResponse;
               Home.m_timestamp := now |} ]
  /\ Home.messages (Home.handleSend_settle now (Responded 500 (Some errorBody)) s)
     <> Home.messages s ++ [Home.errorMessage now]
  /\ sendChatMessage (Responded 500 (Some errorBody))
     = Throw (Error (lit "Failed to reach backend")).
Proof.
  split; [reflexivity|].
  split; [reflexivity|].
  split; [reflexivity|].
  split; [|reflexivity].
  intros H. apply app_inv_head in H. discriminate H.
Qed.



(** ** Further properties of the classifier *)

Lemma startsWith_app_r (p s b : jsstring) :
  startsWith p s = true -> startsWith p (s ++ b) = true.
Proof.
  intros H; destruct (startsWith_app p s H) as [rest ->].
  rewrite <- app_assoc; apply startsWith_prefix.
Qed.

Lemma includes_app_r (p s b : jsstring) :
  includes p s = true -> includes p (s ++ b) = true.
Proof.
  induction s as [|c t IH]; intros H.
  - simpl in H. rewrite orb_false_r in H.
    destruct p; [|discriminate].
    destruct b; reflexivity.
  - simpl in H |- *. apply orb_true_iff in H as [H | H].
    + change (c :: t ++ b) with ((c :: t) ++ b).
      rewrite (startsWith_app_r p (c :: t) b H); reflexivity.
    + rewrite (IH H); apply orb_true_r.
Qed.

Lemma includes_in_context (p pre s post : jsstring) :
  includes p s = true -> includes p (pre ++ s ++ post) = true.
Proof.
  intros H; apply includes_app_l, includes_app_r; exact H.
Qed.

Lemma toLowerCase_app (a b : jsstring) :
  toLowerCase (a ++ b) = toLowerCase a ++ toLowerCase b.
Proof. apply flat_map_app. Qed.

Lemma installation_inv (query : jsstring) :
  r_type (processQuery query) = installation ->
  testInstallation query = true.
Proof.
  rewrite processQuery_type; unfold rules, firstMatch.
  destruct (testInstallation query); [reflexivity|].
  destruct (testCompatibility query); [discriminate|].
  destruct (testTroubleshooting query); discriminate.
Qed.

(** X1.  An installation answer does not depend on the text around the
    query: once a query is classified as [installation], every text that
    contains it gets the same response. *)
Theorem installation_stable_in_context (pre query post : jsstring) :
  r_type (processQuery query) = installation ->
  processQuery (pre ++ query ++ post) = processQuery query.
Proof.
  intros H. apply installation_inv in H.
  unfold testInstallation in H. apply andb_true_iff in H as [Hkw Hpart].
  unfold processQuery; cbv zeta.
  rewrite Hkw, Hpart.
  rewrite !toLowerCase_app.
  rewrite (includes_in_context _ _ _ _ Hkw), (includes_in_context _ _ _ _ Hpart).
  reflexivity.
Qed.

Lemma installation_stable_in_context_witness :
  processQuery (lit "Hi! " ++ lit "install PS11752778" ++ lit " - is it compatible with WDT780SAEM1?")
  = processQuery (lit "install PS11752778").
Proof.
  apply (installation_stable_in_context (lit "Hi! ") (lit "install PS11752778")
           (lit " - is it compatible with WDT780SAEM1?")).
  vm_compute; reflexivity.
Defined.

(** X2.  Every quick action leads to a typed answer: clicking it and
    submitting, from the initial state, appends the user entry with the
    action's query and, when the timer fires, the answer to that query,
    whose intent is not [general]; the three intents come in the order
    installation, compatibility, troubleshooting. *)
Theorem quick_actions_are_answered (t0 t1 t2 : Time) :
  Forall (fun action =>
            PartSelectChatAgent.run
              [Typed (snd action); Submitted t1; TimerFired t2]
              (PartSelectChatAgent.initialState t0)
            = {| PartSelectChatAgent.messages :=
                   PartSelectChatAgent.messages (PartSelectChatAgent.initialState t0)
                   ++ [userEntry (snd action) t1; botEntry (snd action) t2];
                 PartSelectChatAgent.input := [];
                 PartSelectChatAgent.isLoading := false;
                 timers := [] |}
            /\ r_type (processQuery (snd action)) <> general)
         quickActions
  /\ map (fun action => r_type (processQuery (snd action))) quickActions
     = [installation; compatibility; troubleshooting].
Proof.
  split; [|vm_compute; reflexivity].
  unfold quickActions.
  repeat constructor;
    try (simpl snd; match goal with
                    | |- r_type _ <> _ => vm_compute; discriminate
                    end).
  all: unfold PartSelectChatAgent.run; cbn [fold_left PartSelectChatAgent.step snd];
    rewrite (exchange_cycle t1 t2); cbn [PartSelectChatAgent.input setInput];
    try reflexivity; vm_compute; reflexivity.
Qed.

(** ** Further properties of the prototype controller *)

Lemma handleSend_cases (now : Time) (s : PartSelectChatAgent.State) :
  (sendDisabled s = true /\ PartSelectChatAgent.handleSend now s = s)
  \/ (sendDisabled s = false
      /\ blankText (PartSelectChatAgent.input s) = false
      /\ PartSelectChatAgent.isLoading s = false
      /\ PartSelectChatAgent.handleSend now s
         = {| PartSelectChatAgent.messages :=
                PartSelectChatAgent.messages s
                ++ [userEntry (PartSelectChatAgent.input s) now];
              PartSelectChatAgent.input := [];
              PartSelectChatAgent.isLoading := true;
              timers := timers s ++ [PartSelectChatAgent.input s] |}).
Proof.
  unfold PartSelectChatAgent.handleSend, sendDisabled.
  destruct (negb (JS.truthy (trim (PartSelectChatAgent.input s)))
            || PartSelectChatAgent.isLoading s) eqn:G.
  - left; split; reflexivity.
  - right. apply orb_false_iff in G as [Gt Gl].
    split; [reflexivity|]. split; [|split; [exact Gl | reflexivity]].
    destruct (blankText (PartSelectChatAgent.input s)) eqn:B; [|reflexivity].
    rewrite (trim_blank _ B) in Gt; discriminate.
Qed.

Lemma home_handleSend_cases (now : Time) (s : Home.State) :
  (Home.sendDisabled s = true /\ Home.handleSend now s = s)
  \/ (Home.sendDisabled s = false
      /\ blankText (Home.input s) = false
      /\ Home.isLoading s = false
      /\ Home.handleSend now s
         = {| Home.messages :=
                Home.messages s
                ++ [ {| Home.m_type := Home.user;
                        Home.m_content := VString (Home.input s);
                        Home.m_data := None;
                        Home.m_timestamp := now |} ];
              Home.input := [];
              Home.isLoading := true;
              Home.pending := Home.pending s ++ [Home.input s] |}).
Proof.
  unfold Home.handleSend, Home.sendDisabled.
  destruct (negb (JS.truthy (trim (Home.input s))) || Home.isLoading s) eqn:G.
  - left; split; reflexivity.
  - right. apply orb_false_iff in G as [Gt Gl].
    split; [reflexivity|]. split; [|split; [exact Gl | reflexivity]].
    destruct (blankText (Home.input s)) eqn:B; [|reflexivity].
    rewrite (trim_blank _ B) in Gt; discriminate.
Qed.

(** X4.  The Send button is disabled exactly when [handleSend] would do
    nothing: the guard of the handler and the [disabled] attribute
    agree. *)
Theorem send_disabled_iff_noop (now : Time) (s : PartSelectChatAgent.State) :
  sendDisabled s = true <-> PartSelectChatAgent.handleSend now s = s.
Proof.
  destruct (handleSend_cases now s) as [[Hd Hs] | (Hd & _ & _ & Hs)].
  - split; auto.
  - split; [rewrite Hd; discriminate|].
    intros Heq. rewrite Heq in Hs.
    apply (f_equal PartSelectChatAgent.messages) in Hs.
    apply (f_equal (@List.length _)) in Hs.
    simpl in Hs. rewrite length_app in Hs. simpl in Hs. lia.
Qed.

Lemma step_appends (s : PartSelectChatAgent.State) (e : PartSelectChatAgent.Event) :
  exists l,
    PartSelectChatAgent.messages (PartSelectChatAgent.step s e)
    = PartSelectChatAgent.messages s ++ l.
Proof.
  destruct e as [text | now | now]; simpl.
  - exists []; rewrite app_nil_r; reflexivity.
  - destruct (handleSend_cases now s) as [[_ ->] | (_ & _ & _ & ->)].
    + exists []; rewrite app_nil_r; reflexivity.
    + eexists; reflexivity.
  - unfold fireTimer. destruct (timers s).
    + exists []; rewrite app_nil_r; reflexivity.
    + eexists; reflexivity.
Qed.

Lemma run_appends (es : list PartSelectChatAgent.Event)
    (s : PartSelectChatAgent.State) :
  exists l,
    PartSelectChatAgent.messages (PartSelectChatAgent.run es s)
    = PartSelectChatAgent.messages s ++ l.
Proof.
  revert s; induction es as [|e es IH]; intros s.
  - exists []; rewrite app_nil_r; reflexivity.
  - destruct (IH (PartSelectChatAgent.step s e)) as [l2 H2].
    destruct (step_appends s e) as [l1 H1].
    exists (l1 ++ l2).
    change (PartSelectChatAgent.run (e :: es) s)
      with (PartSelectChatAgent.run es (PartSelectChatAgent.step s e)).
    rewrite H2, H1, app_assoc; reflexivity.
Qed.

(** X5.  The transcript is append-only: whatever happens to the
    component, from any state, the entries it had are still there, in
    place and unchanged, before the new ones. *)
Theorem transcript_append_only (es : list PartSelectChatAgent.Event)
    (s : PartSelectChatAgent.State) :
  exists l,
    PartSelectChatAgent.messages (PartSelectChatAgent.run es s)
    = PartSelectChatAgent.messages s ++ l.
Proof.
  exact (run_appends es s).
Qed.

Lemma coherent_initial (t0 : Time) :
  coherent t0 (PartSelectChatAgent.initialState t0).
Proof.
  exists []; split; [constructor|].
  left; repeat split.
Qed.

Lemma coherent_step (t0 : Time) (s : PartSelectChatAgent.State)
    (e : PartSelectChatAgent.Event) :
  coherent t0 s -> coherent t0 (PartSelectChatAgent.step s e).
Proof.
  intros [l [Hl H]].
  destruct e as [text | now | now]; simpl.
  - exists l; split; [exact Hl|]. exact H.
  - destruct (handleSend_cases now s) as [[_ ->] | (_ & Hb & Hi & ->)].
    + exists l; split; assumption.
    + destruct H as [(_ & Ht & Hm) | (text & asked & Hload & _)];
        [|congruence].
      exists l; split; [exact Hl|].
      right. exists (PartSelectChatAgent.input s), now.
      simpl. rewrite Ht, Hm, <- app_assoc.
      repeat split; assumption.
  - unfold fireTimer.
    destruct H as [(Hi & Ht & Hm) | (text & asked & Hload & Ht & Hb & Hm)].
    + rewrite Ht. exists l; split; [exact Hl|]. left; repeat split; assumption.
    + rewrite Ht. unfold timeoutCallback; simpl.
      exists (l ++ [userEntry text asked; botEntry text now]).
      split; [constructor; assumption|].
      left. repeat split.
      rewrite Hm, <- !app_assoc. reflexivity.
Qed.

Lemma coherent_run (t0 : Time) (es : list PartSelectChatAgent.Event)
    (s : PartSelectChatAgent.State) :
  coherent t0 s -> coherent t0 (PartSelectChatAgent.run es s).
Proof.
  revert s; induction es as [|e es IH]; intros s H; [exact H|].
  change (PartSelectChatAgent.run (e :: es) s)
    with (PartSelectChatAgent.run es (PartSelectChatAgent.step s e)).
  apply IH, coherent_step, H.
Qed.

(** X6.  Whatever the user does and whenever timers fire, the transcript
    of the prototype is the greeting followed by complete exchanges:
    each user entry holds text that is not blank and is followed by the
    answer [processQuery] gives to that very text, with that answer as
    payload; only the last user entry may still be waiting, and then the
    one pending timer is closed over its text. *)
Theorem transcript_coherent (t0 : Time) (es : list PartSelectChatAgent.Event) :
  coherent t0 (PartSelectChatAgent.run es (PartSelectChatAgent.initialState t0)).
Proof.
  apply coherent_run, coherent_initial.
Qed.

(** X7.  At most one answer is under way: in every state the prototype
    reaches at most one timer is pending, and the awaiting flag (loader
    shown, input disabled) is set exactly while one is. *)
Theorem one_request_in_flight (t0 : Time) (es : list PartSelectChatAgent.Event) :
  let s := PartSelectChatAgent.run es (PartSelectChatAgent.initialState t0) in
  (List.length (timers s) <= 1)%nat
  /\ (PartSelectChatAgent.isLoading s = true <-> timers s <> []).
Proof.
  cbv zeta.
  destruct (coherent_run t0 es _ (coherent_initial t0))
    as [l [_ [(Hi & Ht & _) | (text & asked & Hload & Ht & _)]]];
    rewrite Ht.
  - split; [simpl; lia|]. rewrite Hi; split; [discriminate | congruence].
  - split; [simpl; lia|]. rewrite Hload; split; [discriminate | reflexivity].
Qed.

(** X8.  The quick-actions panel is shown until the first submission is
    accepted, and never again: it is visible exactly while the transcript
    is the greeting alone, and once hidden it stays hidden whatever
    happens next. *)
Theorem quick_actions_gone_for_good (t0 : Time)
    (es : list PartSelectChatAgent.Event) :
  let s := PartSelectChatAgent.run es (PartSelectChatAgent.initialState t0) in
  (showQuickActions s = true
   <-> PartSelectChatAgent.messages s
       = PartSelectChatAgent.messages (PartSelectChatAgent.initialState t0))
  /\ (forall later,
        showQuickActions s = false ->
        showQuickActions (PartSelectChatAgent.run later s) = false).
Proof.
  cbv zeta.
  destruct (run_appends es (PartSelectChatAgent.initialState t0))
    as [l Hl].
  split.
  - unfold showQuickActions. rewrite Hl, length_app.
    destruct l as [|m l].
    + split; [intros _; apply app_nil_r | reflexivity].
    + split.
      * intros H. apply N.eqb_eq in H.
        cbn [List.length PartSelectChatAgent.messages
             PartSelectChatAgent.initialState] in H. lia.
      * intros H. apply (f_equal (@List.length _)) in H.
        rewrite length_app in H.
        cbn [List.length PartSelectChatAgent.messages
             PartSelectChatAgent.initialState] in H. lia.
  - intros later Hhidden.
    destruct (run_appends later
                (PartSelectChatAgent.run es (PartSelectChatAgent.initialState t0)))
      as [l2 Hl2].
    unfold showQuickActions in *. rewrite Hl2. rewrite Hl in *.
    apply N.eqb_neq in Hhidden. apply N.eqb_neq.
    rewrite !length_app in *.
    cbn [List.length PartSelectChatAgent.messages
         PartSelectChatAgent.initialState] in *.
    lia.
Qed.

Lemma quick_actions_gone_for_good_witness :
  showQuickActions
    (PartSelectChatAgent.run [Typed []; TimerFired 9]
       (PartSelectChatAgent.run [Typed (lit "hello"); Submitted 3]
          (PartSelectChatAgent.initialState 0)))
  = false.
Proof.
  apply (proj2 (quick_actions_gone_for_good 0 [Typed (lit "hello"); Submitted 3])).
  vm_compute; reflexivity.
Defined.

Lemma nondecreasing_sorted (ts : list Time) :
  nondecreasing ts = true <-> Sorted.StronglySorted N.le ts.
Proof.
  split.
  - intros H. apply Sorted.Sorted_StronglySorted.
    + intros x y z; apply N.le_trans.
    + induction ts as [|a rest IH]; [constructor|].
      destruct rest as [|b rest'].
      * repeat constructor.
      * cbn [nondecreasing] in H. apply andb_true_iff in H as [Hab Hrest].
        constructor; [apply IH; exact Hrest|].
        constructor. apply N.leb_le; exact Hab.
  - intros H. apply Sorted.StronglySorted_Sorted in H.
    induction H as [|a rest Hs IH Hhd]; [reflexivity|].
    destruct rest as [|b rest']; [reflexivity|].
    cbn [nondecreasing]. apply andb_true_iff; split; [|exact IH].
    inversion Hhd; subst. apply N.leb_le; assumption.
Qed.

Lemma sorted_remove (a b : list Time) (x : Time) :
  Sorted.StronglySorted N.le (a ++ x :: b) ->
  Sorted.StronglySorted N.le (a ++ b).
Proof.
  induction a as [|y a IH]; simpl; intros H.
  - inversion H; assumption.
  - inversion H as [|? ? Hs Hall]; subst.
    constructor; [apply IH; exact Hs|].
    apply Forall_app in Hall as [Ha Hb].
    apply Forall_app; split; [exact Ha|].
    inversion Hb; assumption.
Qed.

Lemma stamps_sorted_run (es : list PartSelectChatAgent.Event)
    (s : PartSelectChatAgent.State) :
  Sorted.StronglySorted N.le
    (map PartSelectChatAgent.m_timestamp (PartSelectChatAgent.messages s)
     ++ clockReadings es) ->
  Sorted.StronglySorted N.le
    (map PartSelectChatAgent.m_timestamp
       (PartSelectChatAgent.messages (PartSelectChatAgent.run es s))).
Proof.
  revert s; induction es as [|e es IH]; intros s H.
  - simpl in H |- *. rewrite app_nil_r in H; exact H.
  - change (PartSelectChatAgent.run (e :: es) s)
      with (PartSelectChatAgent.run es (PartSelectChatAgent.step s e)).
    apply IH.
    destruct e as [text | now | now]; cbn [clockReadings clockOf] in H.
    + exact H.
    + cbn [PartSelectChatAgent.step].
      destruct (handleSend_cases now s) as [[_ ->] | (_ & _ & _ & ->)].
      * apply sorted_remove in H; exact H.
      * cbn [PartSelectChatAgent.messages].
        rewrite map_app, <- app_assoc; exact H.
    + cbn [PartSelectChatAgent.step]. unfold fireTimer.
      destruct (timers s) as [|q rest].
      * apply sorted_remove in H; exact H.
      * unfold timeoutCallback; cbn [PartSelectChatAgent.messages].
        rewrite map_app, <- app_assoc; exact H.
Qed.

(** X9.  Timestamps follow the transcript: when the clock readings of
    the greeting, the submissions and the timers never go back, the
    timestamps of the entries, read from first to last, never go back
    either. *)
Theorem timestamps_nondecreasing (t0 : Time)
    (es : list PartSelectChatAgent.Event) :
  nondecreasing (t0 :: clockReadings es) = true ->
  nondecreasing
    (map PartSelectChatAgent.m_timestamp
       (PartSelectChatAgent.messages
          (PartSelectChatAgent.run es (PartSelectChatAgent.initialState t0))))
  = true.
Proof.
  intros H. apply nondecreasing_sorted. apply stamps_sorted_run.
  apply nondecreasing_sorted in H. exact H.
Qed.

Lemma timestamps_nondecreasing_witness :
  nondecreasing
    (map PartSelectChatAgent.m_timestamp
       (PartSelectChatAgent.messages
          (PartSelectChatAgent.run
             [Typed (lit "hello"); Submitted 10; Submitted 11; TimerFired 1510]
             (PartSelectChatAgent.initialState 5))))
  = true.
Proof.
  apply (timestamps_nondecreasing 5
           [Typed (lit "hello"); Submitted 10; Submitted 11; TimerFired 1510]).
  vm_compute; reflexivity.
Defined.

(** ** Further properties of the renderer *)

Lemma replaceBold_head (c : unit16) (t : jsstring) :
  (c =? STAR) = false -> exists r, replaceBold (c :: t) = c :: r.
Proof.
  intros Hc. destruct t as [|b t]; simpl.
  - exists []; reflexivity.
  - rewrite Hc; simpl. eexists; reflexivity.
Qed.

Lemma replaceBold_clean_pair (s : jsstring) :
  includes [STAR; STAR] (replaceBold s) = false
  /\ forall c, includes [STAR; STAR] (replaceBold (c :: s)) = false.
Proof.
  induction s as [|a t [IH0 IH1]].
  - split; [reflexivity|].
    intros c; simpl. rewrite !andb_false_r; reflexivity.
  - split; [apply IH1|].
    intros c.
    change (replaceBold (c :: a :: t))
      with (if (c =? STAR) && (a =? STAR) then replaceBold t
            else c :: replaceBold (a :: t)).
    destruct ((c =? STAR) && (a =? STAR)) eqn:Hpair; [exact IH0|].
    cbn [includes]. rewrite (IH1 a), orb_false_r.
    destruct (c =? STAR) eqn:Hc.
    + simpl in Hpair.
      destruct (replaceBold_head a t Hpair) as [r ->].
      cbn [startsWith].
      rewrite (N.eqb_sym STAR a), Hpair, andb_false_l, andb_false_r.
      reflexivity.
    + destruct (replaceBold (a :: t)); cbn [startsWith];
        rewrite (N.eqb_sym STAR c), Hc; reflexivity.
Qed.

Lemma renderLine_heading_inv (line text : jsstring) :
  renderLine line = Ok (heading text) ->
  startsWith (lit "**") line && endsWith (lit "**") line = true
  /\ text = replaceBold line.
Proof.
  unfold renderLine.
  destruct (startsWith (lit "**") line && endsWith (lit "**") line).
  - intros H; injection H as <-; split; reflexivity.
  - destruct (startsWith [BULLET] line); [discriminate|].
    destruct (matchNumbered (trim line)); [discriminate|].
    destruct (includes VIDEO_LABEL line).
    + destruct (matchBracket line); discriminate.
    + destruct (JS.truthy line); discriminate.
Qed.

(** X10.  A heading never shows a bold marker: the text of every
    [heading] block is the line with all its double stars removed, and no
    double star is left in it, wherever they stood in the line. *)
Theorem heading_has_no_bold_marker (line text : jsstring) :
  renderLine line = Ok (heading text) ->
  text = replaceBold line /\ includes (lit "**") text = false.
Proof.
  intros H. destruct (renderLine_heading_inv line text H) as [_ ->].
  split; [reflexivity|].
  apply (proj1 (replaceBold_clean_pair line)).
Qed.

Lemma heading_has_no_bold_marker_witness :
  lit "Tools and parts*"
  = replaceBold (lit "**Tools **and** parts***")
  /\ includes (lit "**") (lit "Tools and parts*") = false.
Proof.
  apply (heading_has_no_bold_marker (lit "**Tools **and** parts***")).
  vm_compute; reflexivity.
Defined.

Lemma whitespace_not_marker (c : unit16) :
  isWhiteSpace c = true ->
  (c =? STAR) = false /\ (c =? BULLET) = false /\ (c =? LBRACKET) = false.
Proof.
  intros H.
  repeat split; apply N.eqb_neq; intros ->; vm_compute in H; discriminate.
Qed.

Lemma includes_video_skip (c : unit16) (t : jsstring) :
  (c =? LBRACKET) = false ->
  includes VIDEO_LABEL (c :: t) = includes VIDEO_LABEL t.
Proof.
  intros Hc.
  change (includes VIDEO_LABEL (c :: t))
    with (startsWith VIDEO_LABEL (c :: t) || includes VIDEO_LABEL t).
  change VIDEO_LABEL with (LBRACKET :: lit "View Video Tutorial]") at 1.
  cbn [startsWith]. rewrite (N.eqb_sym LBRACKET c), Hc. reflexivity.
Qed.

Lemma includes_video_blank (s : jsstring) :
  blankText s = true -> includes VIDEO_LABEL s = false.
Proof.
  induction s as [|c t IH]; intros H; [reflexivity|].
  simpl in H. apply andb_true_iff in H as [Hc Ht].
  destruct (whitespace_not_marker c Hc) as (_ & _ & Hb).
  change (includes VIDEO_LABEL (c :: t))
    with (startsWith VIDEO_LABEL (c :: t) || includes VIDEO_LABEL t).
  rewrite (IH Ht), orb_false_r.
  change VIDEO_LABEL with (LBRACKET :: lit "View Video Tutorial]").
  cbn [startsWith]. rewrite (N.eqb_sym LBRACKET c), Hb. reflexivity.
Qed.

(** X11.  Only the empty line gives a [blank] block.  A line that is not
    empty but holds white space only is kept as a [paragraph] with its
    text unchanged. *)
Theorem blank_only_for_empty_line :
  (forall line, renderLine line = Ok blank <-> line = [])
  /\ (forall line,
        line <> [] -> blankText line = true ->
        renderLine line = Ok (paragraph line)).
Proof.
  split.
  - intros line; split; [|intros ->; reflexivity].
    unfold renderLine.
    destruct (startsWith (lit "**") line && endsWith (lit "**") line);
      [discriminate|].
    destruct (startsWith [BULLET] line); [discriminate|].
    destruct (matchNumbered (trim line)); [discriminate|].
    destruct (includes VIDEO_LABEL line).
    + destruct (matchBracket line); discriminate.
    + destruct line; [reflexivity | discriminate].
  - intros line Hne Hblank.
    destruct line as [|c t]; [congruence|].
    unfold renderLine.
    rewrite (trim_blank _ Hblank), (includes_video_blank _ Hblank).
    simpl in Hblank. apply andb_true_iff in Hblank as [Hc _].
    destruct (whitespace_not_marker c Hc) as (Hs & Hb & _).
    change (lit "**") with [STAR; STAR].
    cbn [startsWith].
    rewrite (N.eqb_sym STAR c), Hs, (N.eqb_sym BULLET c), Hb.
    reflexivity.
Qed.

Lemma blank_only_for_empty_line_witness :
  renderLine (lit "   ") = Ok (paragraph (lit "   ")).
Proof.
  apply (proj2 blank_only_for_empty_line (lit "   "));
    [vm_compute; discriminate | vm_compute; reflexivity].
Defined.

Lemma split_nonempty (sep : unit16) (s : jsstring) :
  split sep s <> [].
Proof.
  destruct s as [|c t]; simpl; [discriminate|].
  destruct (c =? sep); [discriminate|].
  destruct (split sep t); discriminate.
Qed.

Lemma split_app (sep : unit16) (a b : jsstring) :
  split sep (a ++ sep :: b) = split sep a ++ split sep b.
Proof.
  induction a as [|c a IH]; simpl.
  - rewrite N.eqb_refl; reflexivity.
  - destruct (c =? sep); [rewrite IH; reflexivity|].
    rewrite IH.
    destruct (split sep a) as [|l ls] eqn:E; [|reflexivity].
    exfalso; exact (split_nonempty sep a E).
Qed.

Lemma split_parts_clean (sep : unit16) (s : jsstring) :
  Forall (fun l => existsb (N.eqb sep) l = false) (split sep s).
Proof.
  induction s as [|c t IH]; simpl.
  - repeat constructor.
  - destruct (c =? sep) eqn:Hc; [constructor; [reflexivity | exact IH]|].
    destruct (split sep t) as [|l ls]; [repeat constructor; simpl|].
    + rewrite N.eqb_sym, Hc; reflexivity.
    + inversion IH; subst. constructor; [|assumption].
      simpl. rewrite N.eqb_sym, Hc. assumption.
Qed.

Lemma split_clean (sep : unit16) (s : jsstring) :
  existsb (N.eqb sep) s = false -> split sep s = [s].
Proof.
  induction s as [|c t IH]; simpl; [reflexivity|].
  intros H. apply orb_false_iff in H as [Hc Ht].
  rewrite N.eqb_sym, Hc, (IH Ht); reflexivity.
Qed.

Lemma mapM_app {A B} (f : A -> completion B) (l1 l2 : list A) :
  mapM f (l1 ++ l2)
  = (bs1 <- mapM f l1 ;; bs2 <- mapM f l2 ;; Ok (bs1 ++ bs2)).
Proof.
  induction l1 as [|a l1 IH]; simpl.
  - destruct (mapM f l2); reflexivity.
  - destruct (f a); simpl; [|reflexivity].
    rewrite IH. destruct (mapM f l1); simpl; [|reflexivity].
    destruct (mapM f l2); reflexivity.
Qed.

Lemma mapM_In {A B} (f : A -> completion B) (l : list A) (bs : list B) (b : B) :
  mapM f l = Ok bs -> In b bs -> exists a, In a l /\ f a = Ok b.
Proof.
  revert bs; induction l as [|a l IH]; simpl; intros bs H Hin.
  - injection H as <-. destruct Hin.
  - destruct (f a) as [b0|] eqn:Hfa; simpl in H; [|discriminate].
    destruct (mapM f l) as [bs0|]; simpl in H; [|discriminate].
    injection H as <-. destruct Hin as [<- | Hin].
    + exists a; split; [left; reflexivity | exact Hfa].
    + destruct (IH bs0 eq_refl Hin) as [a' [Ha' Hf]].
      exists a'; split; [right; exact Ha' | exact Hf].
Qed.

(** The blocks that carry their line: the text of a bullet, a numbered
    line or a paragraph is the line itself. *)
Lemma renderLine_verbatim (line text : jsstring) (b : DisplayBlock) :
  renderLine line = Ok b ->
  b = bullet text \/ b = numbered text \/ b = paragraph text ->
  text = line.
Proof.
  unfold renderLine.
  destruct (startsWith (lit "**") line && endsWith (lit "**") line).
  { intros H; injection H as <-. intros [H | [H | H]]; discriminate. }
  destruct (startsWith [BULLET] line).
  { intros H; injection H as <-. intros [H | [H | H]]; congruence. }
  destruct (matchNumbered (trim line)).
  { intros H; injection H as <-. intros [H | [H | H]]; congruence. }
  destruct (includes VIDEO_LABEL line).
  { destruct (matchBracket line); [|discriminate].
    intros H; injection H as <-. intros [H | [H | H]]; discriminate. }
  destruct (JS.truthy line);
    intros H; injection H as <-; intros [H | [H | H]]; congruence.
Qed.

(** X12.  Rendering again what a block shows gives the same block: for
    every bullet, numbered line and paragraph of a rendered text, the
    text of the block, rendered on its own, is that one block. *)
Theorem rerender_same_block (content text : jsstring)
    (blocks : list DisplayBlock) (b : DisplayBlock) :
  renderContent content = Ok blocks ->
  In b blocks ->
  b = bullet text \/ b = numbered text \/ b = paragraph text ->
  renderContent text = Ok [b].
Proof.
  intros Hr Hin Hkind.
  destruct (mapM_In renderLine _ _ b Hr Hin) as [line [Hline Hb]].
  assert (text = line) by (eapply renderLine_verbatim; eassumption).
  subst text.
  pose proof (split_parts_clean LF content) as Hclean.
  rewrite Forall_forall in Hclean.
  unfold renderContent.
  rewrite (split_clean LF line (Hclean line Hline)).
  simpl. rewrite Hb; reflexivity.
Qed.

Lemma rerender_same_block_witness :
  renderContent (lit "2. **Remove Upper Rack**: Pull the rack completely out of the dishwasher")
  = Ok [ numbered (lit "2. **Remove Upper Rack**: Pull the rack completely out of the dishwasher") ].
Proof.
  eapply (rerender_same_block installationContent
            (lit "2. **Remove Upper Rack**: Pull the rack completely out of the dishwasher")).
  - vm_compute; reflexivity.
  - do 9 right. left. reflexivity.
  - right; left; reflexivity.
Defined.

(** X13.  Rendering is local to lines: the blocks of two texts joined by
    a newline are the blocks of the first followed by the blocks of the
    second. *)
Theorem render_joined_texts (a b : jsstring) :
  renderContent (a ++ LF :: b)
  = (blocksA <- renderContent a ;;
     blocksB <- renderContent b ;;
     Ok (blocksA ++ blocksB)).
Proof.
  unfold renderContent. rewrite split_app. apply mapM_app.
Qed.

(** X14.  The link shows the first bracketed group of the line, which
    need not be the video label: when the line takes the link branch and
    a well-formed group (no closing bracket and no line terminator inside)
    opens at the first opening bracket of the line, the display text is
    the text of that group. *)
Theorem link_shows_first_group (pre g post : jsstring) :
  let line := pre ++ LBRACKET :: g ++ RBRACKET :: post in
  existsb (N.eqb LBRACKET) pre = false ->
  forallb (fun c => negb (c =? RBRACKET) && negb (isLineTerminator c)) g = true ->
  startsWith (lit "**") line && endsWith (lit "**") line = false ->
  startsWith [BULLET] line = false ->
  matchNumbered (trim line) = false ->
  includes VIDEO_LABEL line = true ->
  renderLine line = Ok (link g).
Proof.
  cbv zeta. intros Hpre Hg Hhead Hbullet Hnum Hvideo.
  unfold renderLine.
  rewrite Hhead, Hbullet, Hnum, Hvideo, (matchBracket_first pre g post Hpre Hg).
  reflexivity.
Qed.

Lemma link_shows_first_group_witness :
  renderLine (lit "Step " ++ LBRACKET :: lit "8" ++ RBRACKET
              :: lit ": [View Video Tutorial](https://www.partselect.com/PS11752778)")
  = Ok (link (lit "8")).
Proof.
  apply (link_shows_first_group (lit "Step ") (lit "8")
           (lit ": [View Video Tutorial](https://www.partselect.com/PS11752778)"));
    vm_compute; reflexivity.
Defined.

Lemma digit_not_whitespace (c : unit16) :
  isDigit c = true ->
  isWhiteSpace c = false /\ (c =? STAR) = false /\ (c =? BULLET) = false.
Proof.
  unfold isDigit, isWhiteSpace, isLineTerminator, STAR, BULLET.
  intros H. apply andb_true_iff in H as [Hlo Hhi].
  apply N.leb_le in Hlo, Hhi.
  repeat match goal with
         | |- context [?a =? ?b] =>
             rewrite (proj2 (N.eqb_neq a b)) by lia
         end.
  rewrite (proj2 (N.leb_gt 8192 c)) by lia.
  repeat split.
Qed.

Lemma trimStart_blank_app (ws s : jsstring) :
  blankText ws = true -> trimStart (ws ++ s) = trimStart s.
Proof.
  induction ws as [|c ws IH]; intros H; [reflexivity|].
  simpl in H. apply andb_true_iff in H as [Hc Hws].
  simpl. rewrite Hc. exact (IH Hws).
Qed.

Lemma trimStart_app_nonws (a b : jsstring) (c : unit16) :
  isWhiteSpace c = false -> trimStart (a ++ c :: b) = trimStart a ++ c :: b.
Proof.
  intros Hc. induction a as [|x a IH]; simpl.
  - rewrite Hc; reflexivity.
  - destruct (isWhiteSpace x); [exact IH | reflexivity].
Qed.

Lemma trimEnd_after_nonws (p r : jsstring) (c : unit16) :
  isWhiteSpace c = false -> trimEnd (p ++ c :: r) = p ++ c :: trimEnd r.
Proof.
  intros Hc. unfold trimEnd.
  rewrite rev_app_distr. simpl rev. rewrite <- app_assoc. simpl app.
  rewrite (trimStart_app_nonws (rev r) (rev p) c Hc).
  rewrite rev_app_distr. simpl rev. rewrite rev_involutive, <- app_assoc.
  reflexivity.
Qed.

Lemma digitsThenDot_inv (s : jsstring) :
  digitsThenDot s = true ->
  exists ds rest, s = ds ++ DOT :: rest /\ forallb isDigit ds = true.
Proof.
  induction s as [|c t IH]; simpl; [discriminate|].
  destruct (isDigit c) eqn:Hd.
  - intros H. destruct (IH H) as [ds [rest [-> Hds]]].
    exists (c :: ds), rest; split; [reflexivity|].
    simpl; rewrite Hd; exact Hds.
  - intros H. apply N.eqb_eq in H; subst c.
    exists [], t; split; reflexivity.
Qed.

Lemma digitsThenDot_intro (ds rest : jsstring) :
  forallb isDigit ds = true -> digitsThenDot (ds ++ DOT :: rest) = true.
Proof.
  induction ds as [|c ds IH]; intros H.
  - reflexivity.
  - simpl in H. apply andb_true_iff in H as [Hc Hds].
    simpl. rewrite Hc. exact (IH Hds).
Qed.

(** The test for a numbered line sees through surrounding white space. *)
Lemma matchNumbered_trim (ws line : jsstring) :
  blankText ws = true ->
  matchNumbered line = true ->
  matchNumbered (trim (ws ++ line)) = true.
Proof.
  intros Hws Hnum.
  destruct line as [|d t]; [discriminate|].
  simpl in Hnum. apply andb_true_iff in Hnum as [Hd Hrest].
  destruct (digitsThenDot_inv t Hrest) as [ds [rest [-> Hds]]].
  destruct (digit_not_whitespace d Hd) as (Hdw & _ & _).
  unfold trim. rewrite (trimStart_blank_app ws _ Hws).
  simpl trimStart. rewrite Hdw.
  change (d :: ds ++ DOT :: rest) with ((d :: ds) ++ DOT :: rest).
  rewrite trimEnd_after_nonws by reflexivity.
  simpl. rewrite Hd. apply digitsThenDot_intro; exact Hds.
Qed.

(** X15.  Indentation is forgiven to numbered lines only.  A line whose
    text after leading white space starts with digits and a period is a
    [numbered] block, shown with its indentation; a bullet marker after
    leading white space does not make a [bullet] block: the line is a
    paragraph (when it has no video label). *)
Theorem indentation_numbered_not_bullet (ws : jsstring) :
  blankText ws = true ->
  (forall line,
      matchNumbered line = true ->
      renderLine (ws ++ line) = Ok (numbered (ws ++ line)))
  /\ (forall rest,
        ws <> [] ->
        includes VIDEO_LABEL rest = false ->
        renderLine (ws ++ BULLET :: rest) = Ok (paragraph (ws ++ BULLET :: rest))).
Proof.
  intros Hws. split.
  - intros line Hnum.
    unfold renderLine.
    rewrite (matchNumbered_trim ws line Hws Hnum).
    assert (Hfirst : startsWith (lit "**") (ws ++ line) = false
                     /\ startsWith [BULLET] (ws ++ line) = false).
    { change (lit "**") with [STAR; STAR].
      destruct ws as [|c ws].
      - destruct line as [|d t]; [discriminate|].
        simpl in Hnum. apply andb_true_iff in Hnum as [Hd _].
        destruct (digit_not_whitespace d Hd) as (_ & Hs & Hb).
        simpl app; cbn [startsWith].
        rewrite (N.eqb_sym STAR d), Hs, (N.eqb_sym BULLET d), Hb.
        split; reflexivity.
      - simpl in Hws. apply andb_true_iff in Hws as [Hc _].
        destruct (whitespace_not_marker c Hc) as (Hs & Hb & _).
        simpl app; cbn [startsWith].
        rewrite (N.eqb_sym STAR c), Hs, (N.eqb_sym BULLET c), Hb.
        split; reflexivity. }
    destruct Hfirst as [-> ->]. reflexivity.
  - intros rest Hne Hvideo.
    destruct ws as [|c ws]; [congruence|].
    pose proof Hws as Hws'.
    simpl in Hws'. apply andb_true_iff in Hws' as [Hc _].
    destruct (whitespace_not_marker c Hc) as (Hs & Hb & _).
    unfold renderLine.
    assert (Hn : matchNumbered (trim ((c :: ws) ++ BULLET :: rest)) = false).
    { unfold trim. rewrite (trimStart_blank_app _ _ Hws).
      simpl trimStart.
      replace (isWhiteSpace BULLET) with false by reflexivity.
      change (BULLET :: rest) with ([] ++ BULLET :: rest).
      rewrite trimEnd_after_nonws by reflexivity.
      reflexivity. }
    assert (Hv : includes VIDEO_LABEL ((c :: ws) ++ BULLET :: rest) = false).
    { clear -Hws Hvideo. induction (c :: ws) as [|x l IH].
      - simpl app.
        rewrite (includes_video_skip BULLET rest eq_refl). exact Hvideo.
      - simpl in Hws. apply andb_true_iff in Hws as [Hx Hl].
        destruct (whitespace_not_marker x Hx) as (_ & _ & Hb).
        simpl app. rewrite (includes_video_skip x _ Hb). exact (IH Hl). }
    rewrite Hn, Hv.
    change (lit "**") with [STAR; STAR].
    simpl app; cbn [startsWith].
    rewrite (N.eqb_sym STAR c), Hs, (N.eqb_sym BULLET c), Hb.
    reflexivity.
Qed.

Lemma indentation_numbered_not_bullet_witness :
  renderLine (lit "  " ++ lit "3. Locate Adjuster")
  = Ok (numbered (lit "  " ++ lit "3. Locate Adjuster"))
  /\ renderLine (lit "  " ++ BULLET :: lit " Phillips screwdriver")
     = Ok (paragraph (lit "  " ++ BULLET :: lit " Phillips screwdriver")).
Proof.
  destruct (indentation_numbered_not_bullet (lit "  ") eq_refl) as [Hn Hb].
  split.
  - apply Hn. vm_compute; reflexivity.
  - apply Hb; [vm_compute; discriminate | vm_compute; reflexivity].
Defined.

(** X16.  The cards under an answer follow its intent: the bot entry the
    prototype builds for a query renders without exception, with the part
    card for [installation] only, the product cards for [compatibility]
    only, the diagnosis cards (with their recommended parts) for
    [troubleshooting] only, and no card for [general]. *)
Theorem answer_cards_follow_intent (query : jsstring) (answeredAt : Time) :
  exists blocks partCard productCards troubleCards,
    renderMessage (botEntry query answeredAt)
    = Ok (BotBubble blocks partCard productCards troubleCards)
    /\ renderContent (r_content (processQuery query)) = Ok blocks
    /\ (isSome partCard, isSome productCards, isSome troubleCards)
       = match r_type (processQuery query) with
         | installation => (true, false, false)
         | compatibility => (false, true, false)
         | troubleshooting => (false, false, true)
         | general => (false, false, false)
         end
    /\ (forall items parts,
          troubleCards = Some (items, parts) -> isSome parts = true).
Proof.
  unfold botEntry, processQuery; cbv zeta.
  destruct (includes (lit "install") (toLowerCase query)
            && includes (lit "ps11752778") (toLowerCase query));
    [|destruct (includes (lit "compatible") (toLowerCase query)
                && includes (lit "wdt780saem1") (toLowerCase query));
      [|destruct (includes (lit "ice maker") (toLowerCase query)
                  && includes (lit "not working") (toLowerCase query))]];
    do 4 eexists;
    (split; [vm_compute; reflexivity|]);
    (split; [vm_compute; reflexivity|]);
    (split; [reflexivity|]);
    intros items parts H; try discriminate H;
    injection H as _ <-; reflexivity.
Qed.

(** ** Further properties of the answer-service path *)

Lemma sendChatMessage_ok_inv (o : Outcome) (v : value) :
  sendChatMessage o = Ok v ->
  exists st, o = Responded st (Some v) /\ 200 <= st /\ st <= 299.
Proof.
  destruct o as [|st b]; [discriminate|].
  unfold sendChatMessage, ok; simpl.
  destruct (200 <=? st) eqn:Hlo; [|discriminate].
  destruct (st <=? 299) eqn:Hhi; [|discriminate].
  destruct b as [v'|]; [|discriminate].
  intros H; injection H as ->.
  exists st. apply N.leb_le in Hlo, Hhi. auto.
Qed.

(** X17.  [sendChatMessage] delivers a body exactly when the service
    answered with a success status (200 to 299) and a JSON body, and then
    it delivers that body; it fails with "Failed to reach backend"
    exactly on an answer with any other status, whatever its body. *)
Theorem sendChatMessage_delivers :
  (forall o v,
      sendChatMessage o = Ok v
      <-> exists st, o = Responded st (Some v) /\ 200 <= st /\ st <= 299)
  /\ (forall o,
        sendChatMessage o = Throw (Error (lit "Failed to reach backend"))
        <-> exists st b, o = Responded st b /\ (st < 200 \/ 299 < st)).
Proof.
  split.
  - intros o v; split.
    + apply sendChatMessage_ok_inv.
    + intros [st [-> [Hlo Hhi]]].
      unfold sendChatMessage, ok; simpl.
      apply N.leb_le in Hlo, Hhi. rewrite Hlo, Hhi. reflexivity.
  - intros o; split.
    + destruct o as [|st b]; [discriminate|].
      unfold sendChatMessage, ok; simpl.
      destruct (200 <=? st) eqn:Hlo.
      * destruct (st <=? 299) eqn:Hhi.
        -- destruct b; discriminate.
        -- intros _. exists st, b. apply N.leb_gt in Hhi. auto.
      * intros _. exists st, b. apply N.leb_gt in Hlo. auto.
    + intros [st [b [-> Hst]]].
      apply sendChatMessage_non_success.
      destruct Hst as [H | H].
      * apply N.leb_gt in H. rewrite H. reflexivity.
      * apply N.leb_gt in H. rewrite H. apply andb_false_r.
Qed.

Lemma sendChatMessage_delivers_witness :
  sendChatMessage (Responded 404 None)
  = Throw (Error (lit "Failed to reach backend")).
Proof.
  apply (proj2 sendChatMessage_delivers (Responded 404 None)).
  exists 404, None. split; [reflexivity | right; reflexivity].
Defined.

Lemma settle_appends_bot (now : Time) (o : Outcome) (s : Home.State) :
  exists entry,
    Home.handleSend_settle now o s
    = {| Home.messages := Home.messages s ++ [entry];
         Home.input := Home.input s;
         Home.isLoading := false;
         Home.pending := tl (Home.pending s) |}
    /\ Home.m_type entry = Home.bot.
Proof.
  unfold Home.handleSend_settle.
  destruct (Home.tryBlock now o) as [m|] eqn:E.
  - exists m; split; [reflexivity|].
    unfold Home.tryBlock in E.
    destruct (fetch o) as [res|]; simpl in E; [|discriminate].
    destruct (json res) as [data|]; simpl in E; [|discriminate].
    destruct (getResponse data) as [r|]; simpl in E; [|discriminate].
    injection E as <-; reflexivity.
  - eexists; split; reflexivity.
Qed.

(** X18.  Nothing escapes [Home.handleSend]: however the [fetch] ends,
    exactly one bot entry is appended, stamped with the time of
    settlement, and the awaiting flag is cleared.  That entry is the
    fixed error entry exactly when the [fetch] was rejected, the body was
    not JSON, or the body was [null] (or [undefined]); in every other
    case it carries the parsed body as payload. *)
Theorem settle_always_answers (now : Time) (o : Outcome) (s : Home.State) :
  exists entry,
    Home.handleSend_settle now o s
    = {| Home.messages := Home.messages s ++ [entry];
         Home.input := Home.input s;
         Home.isLoading := false;
         Home.pending := tl (Home.pending s) |}
    /\ Home.m_type entry = Home.bot
    /\ Home.m_timestamp entry = now
    /\ (entry = Home.errorMessage now
        <-> o = Rejected
            \/ (exists st, o = Responded st None)
            \/ (exists st, o = Responded st (Some VNull))
            \/ (exists st, o = Responded st (Some VUndefined)))
    /\ (entry <> Home.errorMessage now ->
        exists st data, o = Responded st (Some data)
                        /\ Home.m_data entry = Some data).
Proof.
  unfold Home.handleSend_settle.
  destruct o as [|st [data|]].
  - eexists; split; [reflexivity|]. simpl.
    repeat split; auto. intros H; congruence.
  - destruct data;
      (eexists; split; [reflexivity|]; simpl;
       split; [reflexivity|]; split; [reflexivity|]; split;
       [split;
        [try discriminate; intros _; eauto 6
        |try reflexivity;
         intros [H | [[? H] | [[? H] | [? H]]]]; discriminate H]
       |intros Hne; try congruence; eauto]).
  - eexists; split; [reflexivity|]. simpl.
    repeat split; eauto. intros H; congruence.
Qed.

(** X19.  The page agrees with [sendChatMessage] wherever the helper
    succeeds: when [sendChatMessage] would deliver a body other than
    [null], [Home.handleSend] appends an answer entry that carries this
    body as its payload. *)
Theorem page_agrees_with_helper (now : Time) (o : Outcome) (data : value)
    (s : Home.State) :
  sendChatMessage o = Ok data ->
  data <> VNull -> data <> VUndefined ->
  exists content,
    Home.messages (Home.handleSend_settle now o s)
    = Home.messages s
      ++ [ {| Home.m_type := Home.bot;
              Home.m_content := content;
              Home.m_data := Some data;
              Home.m_timestamp := now |} ].
Proof.
  intros Hsend Hnull Hundef.
  apply sendChatMessage_ok_inv in Hsend as [st [-> _]].
  unfold Home.handleSend_settle, Home.tryBlock; simpl.
  destruct data; try congruence; simpl; eexists; reflexivity.
Qed.

Lemma page_agrees_with_helper_witness :
  exists content,
    Home.messages
      (Home.handleSend_settle 7 (Responded 200 (Some errorBodyWithResponse))
         (Home.handleSend 3 (Home.setInput (lit "hello") (Home.initialState 0))))
    = Home.messages
        (Home.handleSend 3 (Home.setInput (lit "hello") (Home.initialState 0)))
      ++ [ {| Home.m_type := Home.bot;
              Home.m_content := content;
              Home.m_data := Some errorBodyWithResponse;
              Home.m_timestamp := 7 |} ].
Proof.
  apply (page_agrees_with_helper 7 (Responded 200 (Some errorBodyWithResponse))
           errorBodyWithResponse);
    [reflexivity | discriminate | discriminate].
Defined.

Lemma exchangeRoles_snoc (n : nat) :
  exchangeRoles n ++ [Home.user; Home.bot] = exchangeRoles (S n).
Proof.
  induction n as [|n IH]; [reflexivity|].
  change (exchangeRoles (S n)) with (Home.user :: Home.bot :: exchangeRoles n).
  simpl app. rewrite IH. reflexivity.
Qed.

Lemma home_shape_step (s : Home.State) (e : Home.Event) :
  (exists n,
      map Home.m_type (Home.messages s) = transcriptRoles n (Home.isLoading s)
      /\ Home.pending s
         = if Home.isLoading s
           then [match last (Home.messages s) (Home.errorMessage 0) with
                 | {| Home.m_content := VString text |} => text
                 | _ => []
                 end]
           else []) ->
  exists n,
    map Home.m_type (Home.messages (Home.step s e))
    = transcriptRoles n (Home.isLoading (Home.step s e))
    /\ Home.pending (Home.step s e)
       = if Home.isLoading (Home.step s e)
         then [match last (Home.messages (Home.step s e)) (Home.errorMessage 0) with
               | {| Home.m_content := VString text |} => text
               | _ => []
               end]
         else [].
Proof.
  intros [n [Hroles Hpending]].
  destruct e as [text | now | now o]; cbn [Home.step].
  - exists n; split; assumption.
  - destruct (home_handleSend_cases now s) as [[_ ->] | (_ & _ & Hidle & ->)].
    + exists n; split; assumption.
    + exists n. rewrite Hidle in Hroles, Hpending.
      cbn [Home.messages Home.isLoading Home.pending].
      rewrite Hpending, map_app, Hroles, last_last.
      unfold transcriptRoles. rewrite app_nil_r. split; reflexivity.
  - destruct (Home.pending s) as [|q rest] eqn:Hp.
    + exists n; split; [assumption|]. rewrite Hp; exact Hpending.
    + destruct (Home.isLoading s) eqn:Hl; [|discriminate].
      injection Hpending as _ ->.
      destruct (settle_appends_bot now o s) as [entry [-> Hbot]].
      cbn [Home.messages Home.isLoading Home.pending].
      rewrite Hp. exists (S n).
      rewrite map_app, Hroles. unfold transcriptRoles.
      simpl map. rewrite Hbot, <- exchangeRoles_snoc, app_nil_r.
      simpl. rewrite <- app_assoc. split; reflexivity.
Qed.

(** X20.  The page keeps one exchange at a time: in every state it
    reaches, the transcript is the greeting followed by whole exchanges
    (a user entry, then a bot entry), plus the user entry of the exchange
    under way exactly when the awaiting flag is set; and a request is
    pending exactly then, a single one, for the text of that last user
    entry. *)
Theorem page_one_exchange_at_a_time (t0 : Time) (es : list Home.Event) :
  let s := Home.run es (Home.initialState t0) in
  exists n,
    map Home.m_type (Home.messages s) = transcriptRoles n (Home.isLoading s)
    /\ Home.pending s
       = if Home.isLoading s
         then [match last (Home.messages s) (Home.errorMessage 0) with
               | {| Home.m_content := VString text |} => text
               | _ => []
               end]
         else [].
Proof.
  cbv zeta.
  assert (Hinit : exists n,
             map Home.m_type (Home.messages (Home.initialState t0))
             = transcriptRoles n (Home.isLoading (Home.initialState t0))
             /\ Home.pending (Home.initialState t0)
                = if Home.isLoading (Home.initialState t0)
                  then [match last (Home.messages (Home.initialState t0))
                                (Home.errorMessage 0) with
                        | {| Home.m_content := VString text |} => text
                        | _ => []
                        end]
                  else [])
    by (exists 0%nat; split; reflexivity).
  revert Hinit. generalize (Home.initialState t0) as s.
  induction es as [|e es IH]; intros s Hs; [exact Hs|].
  change (Home.run (e :: es) s) with (Home.run es (Home.step s e)).
  apply IH, home_shape_step, Hs.
Qed.

(** ** Ranges of the figures shown on the cards *)

(** X21.  Whatever the query, every fix rate of the response (shown as a
    percentage) lies between 0 and 100, and every review score (shown out
    of 5) lies between 0 and 5. *)
Theorem card_figures_in_range (query : jsstring) :
  let r := processQuery query in
  let percent f := (PrimFloat.leb 0 f && PrimFloat.leb f 100)%bool in
  let score f := (PrimFloat.leb 0 f && PrimFloat.leb f 5)%bool in
  (forall products,
      r_products r = Some products ->
      forallb (fun p => percent (cp_fixPercentage p)) products = true)
  /\ (forall parts,
        r_recommendedParts r = Some parts ->
        forallb (fun p => percent (rp_fixPercentage p) && score (rp_reviews p))
          parts = true).
Proof.
  unfold processQuery; cbv zeta.
  destruct (includes (lit "install") (toLowerCase query)
            && includes (lit "ps11752778") (toLowerCase query));
    [|destruct (includes (lit "compatible") (toLowerCase query)
                && includes (lit "wdt780saem1") (toLowerCase query));
      [|destruct (includes (lit "ice maker") (toLowerCase query)
                  && includes (lit "not working") (toLowerCase query))]];
    cbn [r_products r_recommendedParts];
    split; intros l H; try discriminate H;
    injection H as <-; vm_compute; reflexivity.
Qed.

Lemma card_figures_in_range_witness :
  exists products,
    r_products (processQuery (lit "Is this compatible with WDT780SAEM1?"))
    = Some products
    /\ forallb (fun p => (PrimFloat.leb 0 (cp_fixPercentage p)
                          && PrimFloat.leb (cp_fixPercentage p) 100)%bool)
         products
       = true.
Proof.
  eexists; split; [vm_compute; reflexivity|].
  apply (proj1 (card_figures_in_range (lit "Is this compatible with WDT780SAEM1?"))).
  vm_compute; reflexivity.
Defined.

(** ** Case mapping outside Basic Latin *)

(** The Kelvin sign lowercases to k, so a query written with it still
    passes the troubleshooting test; U+0130 lowercases to i followed by a
    combining dot, which breaks the keyword "install". *)
Lemma lowercase_outside_basic_latin :
  r_type (processQuery (lit "My ice ma" ++ 8490 :: lit "er is not wor" ++ 8490 :: lit "ing"))
  = troubleshooting
  /\ r_type (processQuery (304 :: lit "NSTALL PS11752778")) = general.
Proof.
  split; vm_compute; reflexivity.
Qed.
